(** * The Portis provider relay (src/provider.ts): model and properties

    [PortisProvider] relays JSON-RPC requests of a host page to the Portis
    iframe with [postMessage], and hands the answers that come back to the
    callbacks of the requests.  The class is embedded here field by field and
    method by method.

    What lies outside the class is kept abstract:
    - a callback of the host page is a name; calling it is recorded in the
      effect log, and it does not call back into the provider while it runs.
      Called with a response or with a login it returns.  Called with an
      error it returns ([HostCb k]) or raises ([ThrowingCb k]), as the
      callback the README gives to [sendAsync] does:
      [if (err) { throw new Error(err) }];
    - creating the iframe, showing and hiding it and calling
      [sendPostMessage] are effects in the log; what they do to the page is
      modelled apart, on [Page].  [sendPostMessage] posts from a reaction of
      the one promise [elements]; reactions of one promise run in the order
      they were added, so the order of the [PostMessage] effects is the
      order of the posts;
    - JavaScript values are the small type [JsVal]; numbers are integers;
    - a request id is a number (the README calls [sendAsync] with [id: 1],
      [randomId] is an opaque number source).  The object [requests] is keyed
      by the decimal string of the id, which is one-to-one with the number, so
      the map is keyed by the number itself. *)

From stdpp Require Import gmap strings list fin_maps.
From Stdlib Require Import ZArith.

Local Open Scope string_scope.
Local Open Scope list_scope.

(** ** JavaScript values *)

#[local] Set Warnings "-register-all".

Inductive JsVal : Type :=
| JUndefined
| JNull
| JBool (b : bool)
| JNum (n : Z)
| JStr (s : string)
| JArr (elems : list JsVal)
| JObj (props : list (string * JsVal)).

(** ToBoolean, as used by [account ? [account] : []]. *)
Definition js_truthy (v : JsVal) : bool :=
  match v with
  | JUndefined | JNull => false
  | JBool b => b
  | JNum n => negb (n =? 0)%Z
  | JStr s => negb (String.eqb s "")
  | JArr _ | JObj _ => true
  end.

Fixpoint js_prop (key : string) (props : list (string * JsVal)) : JsVal :=
  match props with
  | [] => JUndefined
  | (k, v) :: rest => if String.eqb k key then v else js_prop key rest
  end.

(** [v[0]]: [None] is the TypeError of indexing [undefined] or [null]. *)
Definition js_index0 (v : JsVal) : option JsVal :=
  match v with
  | JUndefined | JNull => None
  | JBool _ | JNum _ => Some JUndefined
  | JStr EmptyString => Some JUndefined
  | JStr (String c _) => Some (JStr (String c EmptyString))
  | JArr [] => Some JUndefined
  | JArr (x :: _) => Some x
  | JObj props => Some (js_prop "0" props)
  end.

(** ** Data of the provider *)

(** [Payload] of types.ts: the JSON-RPC request of the host page. *)
Module Payload.
Record t : Type := Build {
  id : Z;
  jsonrpc : string;
  method : string;
  params : list JsVal;
}.
End Payload.

(** [evt.data.response]: the fields the provider reads.  [id] is [None] when
    the field is absent or null. *)
Module Response.
Record t : Type := Build {
  id : option Z;
  result : JsVal;
  address : JsVal;
}.
End Response.

(** [evt] of the message listener: [evt.origin] and [evt.data]. *)
Record MessageData : Type := {
  msgType : string;
  response : option Response.t;
}.

Record MessageEvent : Type := {
  origin : string;
  data : MessageData;
}.

(** A completion callback: one of the host page, or the [_ => _] the provider
    passes itself.  A callback of the host page either returns whatever it
    is called with, or is one that raises when it is called with an error. *)
Inductive Callback : Type :=
| HostCb (k : nat)
| ThrowingCb (k : nat)
| IdentityCb.

(** An element of [queue] and a value of [requests]: [{ payload, cb }]. *)
Record Item : Type := {
  payload : Payload.t;
  cb : Callback;
}.

Inductive Exn : Type :=
| TypeError
| Error (message : string)
| ThrownString (message : string).

Record AppOptions : Type := {
  opt_sdkVersion : string;
  opt_network : string;
  opt_apiKey : option string;
  opt_infuraApiKey : option string;
  opt_providerNodeUrl : option string;
}.

(** What the provider does to the world around it, in the order it does it. *)
Inductive Effect : Type :=
| PostMessage (type : string) (body : Payload.t)
| Invoke (callback : Callback) (err : option Exn) (res : option Response.t)
| Notify (callback : Callback) (provider : string) (addr : JsVal)
| ShowIframe
| HideIframe
| CreateIframe
| AddMessageListener.

(** The fields of the class. *)
Record PortisProvider : Type := {
  portisClient : string;
  requests : gmap Z Item;
  queue : list Item;
  iframeReady : bool;
  account : JsVal;
  network : JsVal;
  referrerAppOptions : option AppOptions;
  events : list (string * Callback);
}.

Definition set_requests (r : gmap Z Item) (p : PortisProvider) : PortisProvider :=
  {| portisClient := portisClient p; requests := r; queue := queue p;
     iframeReady := iframeReady p; account := account p; network := network p;
     referrerAppOptions := referrerAppOptions p; events := events p |}.

Definition set_queue (q : list Item) (p : PortisProvider) : PortisProvider :=
  {| portisClient := portisClient p; requests := requests p; queue := q;
     iframeReady := iframeReady p; account := account p; network := network p;
     referrerAppOptions := referrerAppOptions p; events := events p |}.

Definition set_iframeReady (b : bool) (p : PortisProvider) : PortisProvider :=
  {| portisClient := portisClient p; requests := requests p; queue := queue p;
     iframeReady := b; account := account p; network := network p;
     referrerAppOptions := referrerAppOptions p; events := events p |}.

Definition set_account (a : JsVal) (p : PortisProvider) : PortisProvider :=
  {| portisClient := portisClient p; requests := requests p; queue := queue p;
     iframeReady := iframeReady p; account := a; network := network p;
     referrerAppOptions := referrerAppOptions p; events := events p |}.

Definition set_network (n : JsVal) (p : PortisProvider) : PortisProvider :=
  {| portisClient := portisClient p; requests := requests p; queue := queue p;
     iframeReady := iframeReady p; account := account p; network := n;
     referrerAppOptions := referrerAppOptions p; events := events p |}.

Definition set_referrerAppOptions (o : AppOptions) (p : PortisProvider) : PortisProvider :=
  {| portisClient := portisClient p; requests := requests p; queue := queue p;
     iframeReady := iframeReady p; account := account p; network := network p;
     referrerAppOptions := Some o; events := events p |}.

Definition set_events (e : list (string * Callback)) (p : PortisProvider) : PortisProvider :=
  {| portisClient := portisClient p; requests := requests p; queue := queue p;
     iframeReady := iframeReady p; account := account p; network := network p;
     referrerAppOptions := referrerAppOptions p; events := e |}.

(** The field initialisers of the class; [iframeReady] is declared without
    one, so it starts [undefined], which every test of it reads as false. *)
Definition fresh : PortisProvider :=
  {| portisClient := "https://app.portis.io"; requests := ∅; queue := [];
     iframeReady := false; account := JNull; network := JNull;
     referrerAppOptions := None; events := [] |}.

(** ** Methods run in a state, log and exception monad *)

Inductive Outcome (A : Type) : Type :=
| Returned (a : A)
| Thrown (e : Exn).
Arguments Returned {A} a.
Arguments Thrown {A} e.

Definition M (A : Type) : Type :=
  PortisProvider -> Outcome A * PortisProvider * list Effect.

Definition ret {A} (a : A) : M A := fun p => (Returned a, p, []).

Definition throw {A} (e : Exn) : M A := fun p => (Thrown e, p, []).

Definition bind {A B} (m : M A) (k : A -> M B) : M B := fun p =>
  match m p with
  | (Returned a, p1, l1) =>
      match k a p1 with (o, p2, l2) => (o, p2, l1 ++ l2) end
  | (Thrown e, p1, l1) => (Thrown e, p1, l1)
  end.

Definition get : M PortisProvider := fun p => (Returned p, p, []).

Definition modify (f : PortisProvider -> PortisProvider) : M unit :=
  fun p => (Returned tt, f p, []).

Definition emit (e : Effect) : M unit := fun p => (Returned tt, p, [e]).

Declare Scope prov_scope.
Delimit Scope prov_scope with prov.
Notation "x <- m ;; k" := (bind m (fun x => k))
  (at level 100, m at next level, k at level 200) : prov_scope.
Notation "m ;; k" := (bind m (fun _ => k))
  (at level 100, k at level 200) : prov_scope.
Local Open Scope prov_scope.

(** [list.forEach(f)] *)
Fixpoint forEach {A} (f : A -> M unit) (l : list A) : M unit :=
  match l with
  | [] => ret tt
  | x :: rest => f x ;; forEach f rest
  end.

(** ** Constants of provider.ts *)

Definition sdkVersion : string := "1.2.9".
Definition PT_RESPONSE : string := "PT_RESPONSE".
Definition PT_HANDLE_REQUEST : string := "PT_HANDLE_REQUEST".
Definition PT_GREEN_LIGHT : string := "PT_GREEN_LIGHT".
Definition PT_SHOW_IFRAME : string := "PT_SHOW_IFRAME".
Definition PT_HIDE_IFRAME : string := "PT_HIDE_IFRAME".
Definition PT_USER_DENIED : string := "PT_USER_DENIED".
Definition PT_USER_LOGGED_IN : string := "PT_USER_LOGGED_IN".
Definition SET_DEFAULT_EMAIL : string := "SET_DEFAULT_EMAIL".
Definition SHOW_PORTIS : string := "SHOW_PORTIS".

Definition denial : Exn := Error "User denied transaction signature.".

Definition missing_apiKey : Exn :=
  ThrownString "apiKey is missing. Please check your apiKey in the Portis dashboard: https://app.portis.io/dashboard".

Definition both_nodes : Exn :=
  ThrownString "Invalid parameters. 'infuraApiKey' and 'providerNodeUrl' cannot be both provided. Refer to the Portis documentation for more info.".

Definition unsupported (method : string) : Exn :=
  Error (String.append
           "The Portis Web3 object does not support synchronous methods like "
           (String.append method " without a callback parameter.")).

(** ** The request queue: [enqueue], [dequeue], [sendPostMessage] *)

Definition sendPostMessage (type : string) (body : Payload.t) : M unit :=
  emit (PostMessage type body).

(** [this.requests[payload.id] = { payload, cb }] *)
Definition register (item : Item) (p : PortisProvider) : PortisProvider :=
  set_requests (<[Payload.id (payload item) := item]> (requests p)) p.

(** One call of [dequeue] up to its recursive call: [None] when the queue is
    empty and the method returns at once; otherwise the head is shifted out,
    posted and registered. *)
Definition dequeue_step (p : PortisProvider) : option (PortisProvider * list Effect) :=
  match queue p with
  | [] => None
  | item :: rest =>
      Some (register item (set_queue rest p),
            [PostMessage PT_HANDLE_REQUEST (payload item)])
  end.

(** [dequeue] calls itself once for each item it shifts; [fuel] bounds the
    depth of the recursion. *)
Fixpoint dequeue_loop (fuel : nat) : M unit :=
  match fuel with
  | O => ret tt
  | S fuel' => fun p =>
      match dequeue_step p with
      | None => (Returned tt, p, [])
      | Some (p1, l1) =>
          match dequeue_loop fuel' p1 with (o, p2, l2) => (o, p2, l1 ++ l2) end
      end
  end.

(** The queue only shrinks while [dequeue] runs, so one more than its length
    is fuel enough (see [dequeue_loop_enough]). *)
Definition dequeue : M unit :=
  fun p => dequeue_loop (S (length (queue p))) p.

Definition enqueue (payload : Payload.t) (cb : Callback) : M unit :=
  modify (fun p => set_queue (queue p ++ [{| payload := payload; cb := cb |}]) p) ;;
  p <- get ;;
  if iframeReady p then dequeue else ret tt.

(** ** The public methods *)

Definition sendAsync (payload : Payload.t) (cb : Callback) : M unit :=
  enqueue payload cb.

(** The object [send] returns. *)
Module RpcResult.
Record t : Type := Build {
  id : Z;
  jsonrpc : string;
  result : JsVal;
}.
End RpcResult.

Definition send (payload : Payload.t) : M RpcResult.t :=
  result <-
    (if String.eqb (Payload.method payload) "eth_accounts" then
       p <- get ;;
       ret (if js_truthy (account p) then JArr [account p] else JArr [])
     else if String.eqb (Payload.method payload) "eth_coinbase" then
       p <- get ;; ret (account p)
     else if String.eqb (Payload.method payload) "net_version" then
       p <- get ;; ret (network p)
     else if String.eqb (Payload.method payload) "eth_uninstallFilter" then
       sendAsync payload IdentityCb ;; ret (JBool true)
     else throw (unsupported (Payload.method payload))) ;;
  ret {| RpcResult.id := Payload.id payload;
         RpcResult.jsonrpc := Payload.jsonrpc payload;
         RpcResult.result := result |}.

Definition isConnected : M bool := ret true.

(** [randomId()] of utils.ts is an opaque source of ids: the id it returns is
    an argument here. *)
Definition sendGenericPayload (randomId : Z) (method : string)
    (params : list JsVal) (callback : Callback) : M unit :=
  enqueue {| Payload.id := randomId; Payload.jsonrpc := "2.0";
             Payload.method := method; Payload.params := params |} callback.

Definition setDefaultEmail (randomId : Z) (email : string) : M unit :=
  sendGenericPayload randomId SET_DEFAULT_EMAIL [JStr email] IdentityCb.

Definition showPortis (randomId : Z) (callback : Callback) : M unit :=
  sendGenericPayload randomId SHOW_PORTIS [] callback.

Definition on (eventName : string) (callback : Callback) : M unit :=
  modify (fun p => set_events (events p ++ [(eventName, callback)]) p).

Definition showIframe : M unit := emit ShowIframe.
Definition hideIframe : M unit := emit HideIframe.

(** ** The message listener installed by [listen] *)

(** [this.requests[id]] followed by a property read: a TypeError when the
    object has no entry under [id]. *)
Definition request_of (id : option Z) : M Item := fun p =>
  match id with
  | Some i =>
      match requests p !! i with
      | Some e => (Returned e, p, [])
      | None => (Thrown TypeError, p, [])
      end
  | None => (Thrown TypeError, p, [])
  end.

(** [if (id)]: an absent or null id and the number 0 are falsy. *)
Definition id_truthy (id : option Z) : bool :=
  match id with
  | Some i => negb (i =? 0)%Z
  | None => false
  end.

Definition is_account_query (method : string) : bool :=
  String.eqb method "eth_accounts" || String.eqb method "eth_coinbase".

Definition on_response (evt : MessageEvent) : M unit :=
  match response (data evt) with
  | None => throw TypeError
  | Some r =>
      let id := Response.id r in
      e <- request_of id ;;
      emit (Invoke (cb e) None (Some r)) ;;
      e1 <- request_of id ;;
      (if is_account_query (Payload.method (payload e1)) then
         match js_index0 (Response.result r) with
         | Some v => modify (set_account v)
         | None => throw TypeError
         end
       else ret tt) ;;
      e2 <- request_of id ;;
      (if String.eqb (Payload.method (payload e2)) "net_version" then
         modify (set_network (Response.result r))
       else ret tt) ;;
      dequeue
  end.

(** [evt.data.response ? evt.data.response.id : null] *)
Definition denied_id (evt : MessageEvent) : option Z :=
  match response (data evt) with
  | Some r => Response.id r
  | None => None
  end.

(** Whether a callback raises when it is called with an error. *)
Definition throws_on_error (cb : Callback) : bool :=
  match cb with
  | ThrowingCb _ => true
  | HostCb _ | IdentityCb => false
  end.

Definition denial_message : string := "User denied transaction signature.".

(** [new Error(err)] for [err = new Error(message)]: what the README's
    callback throws when it is given [err]; its message is [String(err)]. *)
Definition raised_by (message : string) : Exn :=
  Error (String.append "Error: " message).

(** [cb(new Error(message))]: the call is made, and the exception of a
    callback that raises goes up through the caller, which has no handler. *)
Definition call_with_error (cb : Callback) (message : string) : M unit :=
  emit (Invoke cb (Some (Error message)) None) ;;
  if throws_on_error cb then throw (raised_by message) else ret tt.

Definition on_user_denied (evt : MessageEvent) : M unit :=
  let id := denied_id evt in
  (if id_truthy id then
     e <- request_of id ;;
     call_with_error (cb e) denial_message
   else
     p <- get ;;
     forEach (fun item => call_with_error (cb item) denial_message) (queue p)) ;;
  dequeue.

Definition on_user_logged_in (evt : MessageEvent) : M unit :=
  p <- get ;;
  forEach (fun event : string * Callback =>
             match response (data evt) with
             | Some r => emit (Notify (snd event) "portis" (Response.address r))
             | None => throw TypeError
             end)
          (filter (fun event : string * Callback => fst event = "login") (events p)).

Definition on_green_light : M unit :=
  modify (set_iframeReady true) ;; dequeue.

(** [switch (evt.data.msgType)]; a type that no case names falls through. *)
Definition switch_msgType (evt : MessageEvent) : M unit :=
  if String.eqb (msgType (data evt)) PT_GREEN_LIGHT then on_green_light
  else if String.eqb (msgType (data evt)) PT_RESPONSE then on_response evt
  else if String.eqb (msgType (data evt)) PT_SHOW_IFRAME then showIframe
  else if String.eqb (msgType (data evt)) PT_HIDE_IFRAME then hideIframe
  else if String.eqb (msgType (data evt)) PT_USER_DENIED then on_user_denied evt
  else if String.eqb (msgType (data evt)) PT_USER_LOGGED_IN then on_user_logged_in evt
  else ret tt.

Definition listen (evt : MessageEvent) : M unit :=
  p <- get ;;
  if String.eqb (origin evt) (portisClient p) then switch_msgType evt
  else ret tt.

(** ** The constructor *)

(** The options object; a field is [None] when it is left out. *)
Record Opts : Type := {
  apiKey : option string;
  opts_network : option string;
  infuraApiKey : option string;
  providerNodeUrl : option string;
}.

(** Truth value of an optional string: absent and empty are falsy. *)
Definition provided (o : option string) : bool :=
  match o with
  | Some s => negb (String.eqb s "")
  | None => false
  end.

(** [isLocalhost()] of utils.ts reads the address of the page: its answer is
    an argument here. *)
Definition constructor (isLocalhost : bool) (opts : Opts) : M unit :=
  (if negb isLocalhost && negb (provided (apiKey opts))
   then throw missing_apiKey else ret tt) ;;
  (if provided (infuraApiKey opts) && provided (providerNodeUrl opts)
   then throw both_nodes else ret tt) ;;
  modify (set_referrerAppOptions
            {| opt_sdkVersion := sdkVersion;
               opt_network := if provided (opts_network opts)
                              then default "mainnet" (opts_network opts)
                              else "mainnet";
               opt_apiKey := apiKey opts;
               opt_infuraApiKey := infuraApiKey opts;
               opt_providerNodeUrl := providerNodeUrl opts |}) ;;
  emit CreateIframe ;;
  emit AddMessageListener.

(** [new PortisProvider(opts)] *)
Definition new_PortisProvider (isLocalhost : bool) (opts : Opts)
  : Outcome unit * PortisProvider * list Effect :=
  constructor isLocalhost opts fresh.

(** ** Runs of the provider *)

(** What the host page and the iframe do to a provider: calls of its methods
    and messages delivered to its listener. *)
Inductive Action : Type :=
| CallSendAsync (payload : Payload.t) (cb : Callback)
| CallSend (payload : Payload.t)
| CallOn (eventName : string) (callback : Callback)
| Deliver (evt : MessageEvent).

Definition act (a : Action) : M unit :=
  match a with
  | CallSendAsync payload cb => sendAsync payload cb
  | CallSend payload => send payload ;; ret tt
  | CallOn eventName callback => on eventName callback
  | Deliver evt => listen evt
  end.

(** The actions run one after the other; an exception ends the action that
    raised it and the provider lives on. *)
Fixpoint run (acts : list Action) (p : PortisProvider) : PortisProvider * list Effect :=
  match acts with
  | [] => (p, [])
  | a :: rest =>
      match act a p with
      | (_, p1, l1) =>
          match run rest p1 with (p2, l2) => (p2, l1 ++ l2) end
      end
  end.

(** Messages of the iframe, sent from the origin the provider trusts. *)
Definition from_portis (type : string) (r : option Response.t) : MessageEvent :=
  {| origin := "https://app.portis.io";
     data := {| msgType := type; response := r |} |}.

Definition answer (id : Z) (result : JsVal) : Response.t :=
  {| Response.id := Some id; Response.result := result;
     Response.address := JUndefined |}.

Definition request (id : Z) (method : string) : Payload.t :=
  {| Payload.id := id; Payload.jsonrpc := "2.0";
     Payload.method := method; Payload.params := [] |}.

(** The calls [sendAsync(item.payload, item.cb)], one for each item. *)
Definition sendAsync_all (items : list Item) : list Action :=
  map (fun item => CallSendAsync (payload item) (cb item)) items.

Definition denied (id : option Z) : Response.t :=
  {| Response.id := id; Response.result := JUndefined;
     Response.address := JUndefined |}.

(** ** Closed forms used in the statements *)

(** The posts of a drain of the queue [q], in order. *)
Definition posts (q : list Item) : list Effect :=
  map (fun item => PostMessage PT_HANDLE_REQUEST (payload item)) q.

(** The denial delivered to the callbacks of [q], in order. *)
Definition denials (q : list Item) : list Effect :=
  map (fun item => Invoke (cb item) (Some denial) None) q.

(** The denial delivered to the callbacks of [q] in order, up to and with
    the first one that raises; the flag tells whether one did. *)
Fixpoint denied_until_throw (q : list Item) : list Effect * bool :=
  match q with
  | [] => ([], false)
  | item :: rest =>
      if throws_on_error (cb item)
      then ([Invoke (cb item) (Some denial) None], true)
      else match denied_until_throw rest with
           | (l, threw) => (Invoke (cb item) (Some denial) None :: l, threw)
           end
  end.

(** No callback of [q] raises when it is called with an error. *)
Definition all_return (q : list Item) : Prop :=
  Forall (fun item => throws_on_error (cb item) = false) q.

(** [requests] after the items of [q] were registered one after the other;
    a later item replaces an earlier one of the same id. *)
Definition register_all (q : list Item) (m : gmap Z Item) : gmap Z Item :=
  foldl (fun m item => <[Payload.id (payload item) := item]> m) m q.

(** The provider after a drain: nothing queued, everything registered. *)
Definition drained (p : PortisProvider) : PortisProvider :=
  set_queue [] (set_requests (register_all (queue p) (requests p)) p).

(** The provider after the first [k] rounds of a drain. *)
Definition drained_to (k : nat) (p : PortisProvider) : PortisProvider :=
  set_queue (drop k (queue p))
    (set_requests (register_all (take k (queue p)) (requests p)) p).

(** [k] rounds of [dequeue], one [dequeue_step] each; [None] when the queue
    runs out before. *)
Fixpoint dequeue_steps (k : nat) (p : PortisProvider)
  : option (PortisProvider * list Effect) :=
  match k with
  | O => Some (p, [])
  | S k' =>
      match dequeue_step p with
      | None => None
      | Some (p1, l1) =>
          match dequeue_steps k' p1 with
          | Some (p2, l2) => Some (p2, l1 ++ l2)
          | None => None
          end
      end
  end.

(** The provider with [item] pushed on its queue. *)
Definition pushed (item : Item) (p : PortisProvider) : PortisProvider :=
  set_queue (queue p ++ [item]) p.

(** The provider after the session fields were set from the response [r] to
    a request of the given method; [None] when [r.result[0]] raises. *)
Definition session_after (method : string) (r : Response.t) (p : PortisProvider)
  : option PortisProvider :=
  match (if is_account_query method
         then option_map (fun v => set_account v p) (js_index0 (Response.result r))
         else Some p) with
  | Some p1 =>
      Some (if String.eqb method "net_version"
            then set_network (Response.result r) p1 else p1)
  | None => None
  end.

(** A computation that never takes an id out of [requests]. *)
Definition keeps {A} (m : M A) : Prop :=
  forall p o p' l, m p = (o, p', l) ->
  forall i, is_Some (requests p !! i) -> is_Some (requests p' !! i).

(** ** Relations between the provider before and after a computation *)

(** [m] respects [R] when every run of [m], returning or raising, relates the
    provider it started from, the provider it leaves and its log by [R]. *)
Definition respects (R : PortisProvider -> PortisProvider -> list Effect -> Prop)
    {A} (m : M A) : Prop :=
  forall p o p' l, m p = (o, p', l) -> R p p' l.

Definition is_post (e : Effect) : bool :=
  match e with
  | PostMessage _ _ => true
  | _ => false
  end.

(** The posts of a log, the other effects left out. *)
Definition post_effects (l : list Effect) : list Effect := List.filter is_post l.

(** What an action pushes on the queue. *)
Definition enqueued_by (a : Action) : list Item :=
  match a with
  | CallSendAsync payload cb => [{| payload := payload; cb := cb |}]
  | CallSend payload =>
      if String.eqb (Payload.method payload) "eth_uninstallFilter"
      then [{| payload := payload; cb := IdentityCb |}] else []
  | CallOn _ _ => []
  | Deliver _ => []
  end.

(** Whether an action is the delivery of a green light the listener accepts. *)
Definition is_green_light (a : Action) (p : PortisProvider) : bool :=
  match a with
  | Deliver evt =>
      String.eqb (origin evt) (portisClient p) &&
      String.eqb (msgType (data evt)) PT_GREEN_LIGHT
  | _ => false
  end.

(** Whether an action is the delivery of a response the listener accepts. *)
Definition is_response (a : Action) (p : PortisProvider) : bool :=
  match a with
  | Deliver evt =>
      String.eqb (origin evt) (portisClient p) &&
      String.eqb (msgType (data evt)) PT_RESPONSE
  | _ => false
  end.

(** The queue holds nothing once the iframe is ready. *)
Definition ready_queue_empty (p : PortisProvider) : Prop :=
  iframeReady p = true -> queue p = [].

(** Every entry of [requests] sits under the id of its own payload. *)
Definition keyed_by_id (p : PortisProvider) : Prop :=
  forall i e, requests p !! i = Some e -> Payload.id (payload e) = i.

(** The subscribers of an event, in the order they registered. *)
Definition subscribers (eventName : string) (p : PortisProvider)
  : list (string * Callback) :=
  filter (fun event : string * Callback => fst event = eventName) (events p).

(** The types the listener has a case for. *)
Definition handled_types : list string :=
  [PT_GREEN_LIGHT; PT_RESPONSE; PT_SHOW_IFRAME; PT_HIDE_IFRAME;
   PT_USER_DENIED; PT_USER_LOGGED_IN].

(** ** The page: the iframe, its wrapper and the promise [elements]

    The page as the one provider sees and touches it.  [createIframe] makes
    the promise [elements]; [showIframe], [hideIframe] and [sendPostMessage]
    each add a reaction to it with [then].  A reaction of a settled promise
    runs after the job that added it, and nothing of the provider reads the
    page in between, so it is run at once here; reactions of a pending
    promise wait in [reactions] and run in the order they were added when
    [onload] resolves it. *)

(** The value the promise resolves with, and what the provider sets on it. *)
Record Elements : Type := {
  wrapper_className : string;
  wrapper_display : string;
  iframe_className : string;
  iframe_src : string;
}.

Record Page : Type := {
  readyState : string;
  mobile : bool;
  iframe_has_window : bool;
  body_overflow : string;
  head_styles : list string;
  elements : option Elements;
  load_listener : bool;
  reactions : list Effect;
  outbox : list (string * Payload.t);
}.

Definition set_readyState (s : string) (pg : Page) : Page :=
  {| readyState := s; mobile := mobile pg;
     iframe_has_window := iframe_has_window pg;
     body_overflow := body_overflow pg; head_styles := head_styles pg;
     elements := elements pg; load_listener := load_listener pg;
     reactions := reactions pg; outbox := outbox pg |}.

Definition set_body_overflow (s : string) (pg : Page) : Page :=
  {| readyState := readyState pg; mobile := mobile pg;
     iframe_has_window := iframe_has_window pg;
     body_overflow := s; head_styles := head_styles pg;
     elements := elements pg; load_listener := load_listener pg;
     reactions := reactions pg; outbox := outbox pg |}.

Definition set_head_styles (l : list string) (pg : Page) : Page :=
  {| readyState := readyState pg; mobile := mobile pg;
     iframe_has_window := iframe_has_window pg;
     body_overflow := body_overflow pg; head_styles := l;
     elements := elements pg; load_listener := load_listener pg;
     reactions := reactions pg; outbox := outbox pg |}.

Definition set_elements (e : option Elements) (pg : Page) : Page :=
  {| readyState := readyState pg; mobile := mobile pg;
     iframe_has_window := iframe_has_window pg;
     body_overflow := body_overflow pg; head_styles := head_styles pg;
     elements := e; load_listener := load_listener pg;
     reactions := reactions pg; outbox := outbox pg |}.

Definition set_load_listener (b : bool) (pg : Page) : Page :=
  {| readyState := readyState pg; mobile := mobile pg;
     iframe_has_window := iframe_has_window pg;
     body_overflow := body_overflow pg; head_styles := head_styles pg;
     elements := elements pg; load_listener := b;
     reactions := reactions pg; outbox := outbox pg |}.

Definition set_reactions (l : list Effect) (pg : Page) : Page :=
  {| readyState := readyState pg; mobile := mobile pg;
     iframe_has_window := iframe_has_window pg;
     body_overflow := body_overflow pg; head_styles := head_styles pg;
     elements := elements pg; load_listener := load_listener pg;
     reactions := l; outbox := outbox pg |}.

Definition set_outbox (l : list (string * Payload.t)) (pg : Page) : Page :=
  {| readyState := readyState pg; mobile := mobile pg;
     iframe_has_window := iframe_has_window pg;
     body_overflow := body_overflow pg; head_styles := head_styles pg;
     elements := elements pg; load_listener := load_listener pg;
     reactions := reactions pg; outbox := l |}.

Definition set_wrapper_display (d : string) (els : Elements) : Elements :=
  {| wrapper_className := wrapper_className els; wrapper_display := d;
     iframe_className := iframe_className els; iframe_src := iframe_src els |}.

(** The functions given to [this.elements.then] by [showIframe],
    [hideIframe] and [sendPostMessage], run on the resolved elements. *)
Definition react (e : Effect) (pg : Page) : Page :=
  match elements pg with
  | None => pg
  | Some els =>
      match e with
      | ShowIframe =>
          let pg1 := set_elements (Some (set_wrapper_display "block" els)) pg in
          if mobile pg then set_body_overflow "hidden" pg1 else pg1
      | HideIframe =>
          let pg1 := set_elements (Some (set_wrapper_display "none" els)) pg in
          if mobile pg then set_body_overflow "inherit" pg1 else pg1
      | PostMessage type body =>
          if iframe_has_window pg
          then set_outbox (outbox pg ++ [(type, body)]) pg
          else pg
      | _ => pg
      end
  end.

(** [this.elements.then(f)] *)
Definition thenElements (e : Effect) (pg : Page) : Page :=
  match elements pg with
  | Some _ => react e pg
  | None => set_reactions (reactions pg ++ [e]) pg
  end.

(** The ready states under which [createIframe] builds the iframe at once. *)
Definition loaded_states : list string := ["loaded"; "interactive"; "complete"].

Section PageModel.

(** [css] of style.ts, and [btoa(JSON.stringify(...))] of the platform. *)
Variable css : string.
Variable btoa_json : option AppOptions -> string.

(** [onload] of [createIframe]: the elements are made and appended, the
    promise resolves and the reactions that waited run in order. *)
Definition onload (p : PortisProvider) (pg : Page) : Page :=
  let els :=
    {| wrapper_className := if mobile pg then "mobile-wrapper" else "wrapper";
       wrapper_display := "";
       iframe_className := if mobile pg then "mobile-iframe" else "iframe";
       iframe_src :=
         String.append (portisClient p)
           (String.append "/send/?p=" (btoa_json (referrerAppOptions p))) |} in
  foldl (fun pg e => react e pg)
        (set_reactions []
           (set_elements (Some els)
              (set_head_styles (head_styles pg ++ [css]) pg)))
        (reactions pg).

Definition createIframe (p : PortisProvider) (pg : Page) : Page :=
  if bool_decide (readyState pg ∈ loaded_states)
  then onload p pg
  else set_load_listener true pg.

(** The load event of the window: it comes once, the document is complete
    by then, and the listener [createIframe] left, if any, runs. *)
Definition fire_load (p : PortisProvider) (pg : Page) : Page :=
  let pg1 := set_load_listener false (set_readyState "complete" pg) in
  if load_listener pg then onload p pg1 else pg1.

(** What an effect of the provider does to the page. *)
Definition perform_effect (p : PortisProvider) (pg : Page) (e : Effect) : Page :=
  match e with
  | CreateIframe => createIframe p pg
  | PostMessage _ _ | ShowIframe | HideIframe => thenElements e pg
  | Invoke _ _ _ | Notify _ _ _ | AddMessageListener => pg
  end.

Definition perform (p : PortisProvider) (l : list Effect) (pg : Page) : Page :=
  foldl (perform_effect p) pg l.

End PageModel.

(** The effects that add a reaction to [elements]. *)
Definition is_page_effect (e : Effect) : bool :=
  match e with
  | PostMessage _ _ | ShowIframe | HideIframe => true
  | _ => false
  end.

(** A page before any provider was constructed on it. *)
Definition blank_page (state : string) (is_mobile has_window : bool) : Page :=
  {| readyState := state; mobile := is_mobile; iframe_has_window := has_window;
     body_overflow := "auto"; head_styles := []; elements := None;
     load_listener := false; reactions := []; outbox := [] |}.

(** The messages a log hands to [sendPostMessage], in order. *)
Fixpoint messages (l : list Effect) : list (string * Payload.t) :=
  match l with
  | [] => []
  | PostMessage type body :: rest => (type, body) :: messages rest
  | _ :: rest => messages rest
  end.

(** A page the provider has not touched yet. *)
Definition untouched (pg : Page) : Prop :=
  elements pg = None /\ reactions pg = [] /\ load_listener pg = false.

(** ** The monad and the setters *)

Ltac unfold_m :=
  unfold bind, ret, get, modify, emit, throw in *.

Lemma provider_eta p :
  {| portisClient := portisClient p; requests := requests p; queue := queue p;
     iframeReady := iframeReady p; account := account p; network := network p;
     referrerAppOptions := referrerAppOptions p; events := events p |} = p.
Proof. destruct p; reflexivity. Qed.

Lemma item_eta item : {| payload := payload item; cb := cb item |} = item.
Proof. destruct item; reflexivity. Qed.

Lemma register_all_app q1 q2 m :
  register_all (q1 ++ q2) m = register_all q2 (register_all q1 m).
Proof. unfold register_all. apply foldl_app. Qed.

Lemma register_all_keeps q : forall (m : gmap Z Item) i,
  is_Some (m !! i) -> is_Some (register_all q m !! i).
Proof.
  induction q as [|item q IH]; intros m i Hi; simpl; [exact Hi|].
  apply IH. destruct (decide (Payload.id (payload item) = i)) as [->|Hne].
  - rewrite lookup_insert_eq. eauto.
  - rewrite lookup_insert_ne by exact Hne. exact Hi.
Qed.

(** ** [dequeue] *)

Lemma dequeue_loop_enough fuel : forall p,
  length (queue p) < fuel ->
  dequeue_loop fuel p = (Returned tt, drained p, posts (queue p)).
Proof.
  induction fuel as [|fuel IH]; intros p Hlen; [lia|].
  simpl. unfold dequeue_step.
  destruct p as [pc rq q rdy ac nw ro ev]; simpl in *.
  destruct q as [|item rest]; simpl in *.
  - reflexivity.
  - rewrite IH by (simpl; lia). reflexivity.
Qed.

Lemma dequeue_spec p :
  dequeue p = (Returned tt, drained p, posts (queue p)).
Proof. unfold dequeue. apply dequeue_loop_enough. lia. Qed.

Lemma dequeue_steps_spec k : forall p,
  k <= length (queue p) ->
  dequeue_steps k p = Some (drained_to k p, posts (take k (queue p))).
Proof.
  induction k as [|k IH]; intros p Hlen.
  - simpl. unfold drained_to. rewrite drop_0. simpl.
    destruct p; reflexivity.
  - simpl. unfold dequeue_step.
    destruct p as [pc rq q rdy ac nw ro ev]; simpl in *.
    destruct q as [|item rest]; simpl in *; [lia|].
    rewrite IH by (simpl; lia). reflexivity.
Qed.

Lemma dequeue_step_drained p : dequeue_step (drained p) = None.
Proof. reflexivity. Qed.

Lemma drained_to_all p : drained_to (length (queue p)) p = drained p.
Proof.
  unfold drained_to, drained. rewrite drop_all, firstn_all. reflexivity.
Qed.

(** A call of [dequeue] is the rounds of [dequeue_steps], as many as there
    are items, followed by the round that finds the queue empty. *)
Lemma dequeue_is_steps p :
  dequeue_steps (length (queue p)) p = Some (drained p, posts (queue p)) /\
  dequeue_step (drained p) = None /\
  dequeue p = (Returned tt, drained p, posts (queue p)).
Proof.
  split; [|split].
  - rewrite dequeue_steps_spec by lia.
    rewrite drained_to_all, firstn_all. reflexivity.
  - apply dequeue_step_drained.
  - apply dequeue_spec.
Qed.

(** ** [enqueue] *)

Lemma enqueue_spec payload cb p :
  enqueue payload cb p =
  let p1 := pushed {| payload := payload; cb := cb |} p in
  if iframeReady p
  then (Returned tt, drained p1, posts (queue p1))
  else (Returned tt, p1, []).
Proof.
  unfold enqueue. unfold_m. simpl.
  destruct (iframeReady p) eqn:Hr.
  - rewrite dequeue_spec. reflexivity.
  - reflexivity.
Qed.

(** ** The listener, case by case *)

Lemma bind_get_run {A} (k : PortisProvider -> M A) p : bind get k p = k p p.
Proof. unfold bind, get. destruct (k p p) as [[o p'] l]. reflexivity. Qed.

Lemma listen_portis evt p :
  origin evt = portisClient p -> listen evt p = switch_msgType evt p.
Proof.
  intros Ho. unfold listen. rewrite bind_get_run, Ho, String.eqb_refl.
  reflexivity.
Qed.

Lemma listen_foreign evt p :
  origin evt <> portisClient p -> listen evt p = (Returned tt, p, []).
Proof.
  intros Ho. unfold listen. rewrite bind_get_run.
  destruct (String.eqb_spec (origin evt) (portisClient p)) as [Heq|_].
  - contradiction.
  - reflexivity.
Qed.

Lemma on_green_light_spec p :
  on_green_light p =
  (Returned tt, drained (set_iframeReady true p), posts (queue p)).
Proof.
  unfold on_green_light. unfold_m. rewrite dequeue_spec. reflexivity.
Qed.

Lemma request_of_known i e p :
  requests p !! i = Some e -> request_of (Some i) p = (Returned e, p, []).
Proof. intros H. unfold request_of. rewrite H. reflexivity. Qed.

Lemma request_of_unknown id p :
  (forall i, id = Some i -> requests p !! i = None) ->
  request_of id p = (Thrown TypeError, p, []).
Proof.
  intros H. unfold request_of. destruct id as [i|]; [|reflexivity].
  rewrite (H i eq_refl). reflexivity.
Qed.

Lemma on_response_unknown evt r p :
  response (data evt) = Some r ->
  (forall i, Response.id r = Some i -> requests p !! i = None) ->
  on_response evt p = (Thrown TypeError, p, []).
Proof.
  intros Hr Hid. unfold on_response. rewrite Hr. unfold bind at 1.
  rewrite request_of_unknown by exact Hid. reflexivity.
Qed.

Lemma on_response_known evt r i e p :
  response (data evt) = Some r ->
  Response.id r = Some i ->
  requests p !! i = Some e ->
  on_response evt p =
  match session_after (Payload.method (payload e)) r p with
  | Some p1 =>
      (Returned tt, drained p1, Invoke (cb e) None (Some r) :: posts (queue p))
  | None => (Thrown TypeError, p, [Invoke (cb e) None (Some r)])
  end.
Proof.
  intros Hr Hid He. unfold on_response, session_after. rewrite Hr, Hid.
  unfold bind at 1. rewrite (request_of_known i e p He).
  unfold bind at 1. unfold emit at 1.
  unfold bind at 1. rewrite (request_of_known i e p He).
  unfold bind at 1.
  destruct (is_account_query (Payload.method (payload e))).
  - destruct (js_index0 (Response.result r)) as [v|]; simpl.
    + unfold modify at 1. unfold bind at 1.
      rewrite (request_of_known i e (set_account v p) He).
      unfold bind at 1.
      destruct (String.eqb (Payload.method (payload e)) "net_version");
        unfold_m; rewrite dequeue_spec; reflexivity.
    + reflexivity.
  - simpl. unfold ret at 1. unfold bind at 1.
    rewrite (request_of_known i e p He).
    unfold bind at 1.
    destruct (String.eqb (Payload.method (payload e)) "net_version");
      unfold_m; rewrite dequeue_spec; reflexivity.
Qed.

Lemma forEach_emit {A} (f : A -> Effect) (l : list A) p :
  forEach (fun x => emit (f x)) l p = (Returned tt, p, map f l).
Proof.
  induction l as [|x l IH]; simpl; [reflexivity|].
  unfold bind, emit in *. rewrite IH. reflexivity.
Qed.

Lemma call_with_error_spec cb message p :
  call_with_error cb message p =
  (if throws_on_error cb then Thrown (raised_by message) else Returned tt,
   p, [Invoke cb (Some (Error message)) None]).
Proof.
  unfold call_with_error. unfold_m. destruct (throws_on_error cb); reflexivity.
Qed.

Lemma forEach_deny q p :
  forEach (fun item => call_with_error (cb item) denial_message) q p =
  (if snd (denied_until_throw q)
   then Thrown (raised_by denial_message) else Returned tt,
   p, fst (denied_until_throw q)).
Proof.
  induction q as [|item q IH]; simpl; [reflexivity|].
  unfold bind. rewrite call_with_error_spec.
  destruct (throws_on_error (cb item)); [reflexivity|].
  rewrite IH. destruct (denied_until_throw q) as [l threw]. reflexivity.
Qed.

Lemma denied_until_throw_all q :
  all_return q -> denied_until_throw q = (denials q, false).
Proof.
  induction 1 as [|item q Hitem _ IH]; simpl; [reflexivity|].
  rewrite Hitem, IH. reflexivity.
Qed.

Lemma denied_until_throw_stop before item after :
  all_return before ->
  throws_on_error (cb item) = true ->
  denied_until_throw (before ++ item :: after) =
  (denials (before ++ [item]), true).
Proof.
  intros Hb Hitem. induction Hb as [|x before Hx _ IH]; simpl.
  - rewrite Hitem. reflexivity.
  - rewrite Hx, IH. reflexivity.
Qed.

Lemma on_user_denied_known evt i e p :
  denied_id evt = Some i ->
  i <> 0%Z ->
  requests p !! i = Some e ->
  on_user_denied evt p =
  if throws_on_error (cb e)
  then (Thrown (raised_by denial_message), p, [Invoke (cb e) (Some denial) None])
  else (Returned tt, drained p,
        Invoke (cb e) (Some denial) None :: posts (queue p)).
Proof.
  intros Hid Hnz He. unfold on_user_denied. rewrite Hid. simpl.
  destruct (Z.eqb_spec i 0) as [Hz|_]; [contradiction|]. simpl.
  unfold bind at 1. unfold bind at 1.
  rewrite (request_of_known i e p He), call_with_error_spec.
  destruct (throws_on_error (cb e)); [reflexivity|].
  rewrite dequeue_spec. reflexivity.
Qed.

Lemma on_user_denied_unknown evt p :
  id_truthy (denied_id evt) = true ->
  (forall i, denied_id evt = Some i -> requests p !! i = None) ->
  on_user_denied evt p = (Thrown TypeError, p, []).
Proof.
  intros Ht Hid. unfold on_user_denied. rewrite Ht.
  unfold bind at 1. unfold bind at 1.
  rewrite request_of_unknown by exact Hid. reflexivity.
Qed.

Lemma on_user_denied_broadcast evt p :
  id_truthy (denied_id evt) = false ->
  on_user_denied evt p =
  if snd (denied_until_throw (queue p))
  then (Thrown (raised_by denial_message), p, fst (denied_until_throw (queue p)))
  else (Returned tt, drained p,
        fst (denied_until_throw (queue p)) ++ posts (queue p)).
Proof.
  intros Ht. unfold on_user_denied. rewrite Ht.
  unfold bind at 1. rewrite bind_get_run, forEach_deny.
  destruct (snd (denied_until_throw (queue p))); [reflexivity|].
  rewrite dequeue_spec. reflexivity.
Qed.

Lemma on_user_denied_broadcast_all evt p :
  id_truthy (denied_id evt) = false ->
  all_return (queue p) ->
  on_user_denied evt p =
  (Returned tt, drained p, denials (queue p) ++ posts (queue p)).
Proof.
  intros Ht Hall. rewrite (on_user_denied_broadcast evt p Ht).
  rewrite (denied_until_throw_all _ Hall). reflexivity.
Qed.


Lemma run_sendAsync_not_ready items : forall p,
  iframeReady p = false ->
  run (sendAsync_all items) p = (set_queue (queue p ++ items) p, []).
Proof.
  induction items as [|item items IH]; intros p Hr; simpl.
  - rewrite app_nil_r. destruct p; reflexivity.
  - unfold sendAsync. rewrite enqueue_spec, Hr. simpl.
    rewrite item_eta, IH by exact Hr. simpl.
    rewrite <- app_assoc. reflexivity.
Qed.

(** ** Properties of the relay *)

(** C6. A message whose origin is not the very string [portisClient] is
    dropped before the listener looks at it: whatever its type and its
    response, the provider is left as it was, nothing is called and nothing
    is posted.  The test is equality of strings, so a longer or a similar
    origin is a different one. *)
Theorem foreign_origin_is_ignored (evt : MessageEvent) (p : PortisProvider) :
  origin evt <> portisClient p ->
  listen evt p = (Returned tt, p, []).
Proof.
  intros Ho. unfold listen. rewrite bind_get_run.
  destruct (String.eqb_spec (origin evt) (portisClient p)) as [Heq|_].
  - contradiction.
  - reflexivity.
Qed.

Lemma foreign_origin_is_ignored_witness :
  let evt := {| origin := "https://app.portis.io.evil.example";
                data := {| msgType := PT_GREEN_LIGHT; response := None |} |} in
  let p := pushed {| payload := request 1 "eth_accounts"; cb := HostCb 0 |} fresh in
  origin evt <> portisClient p /\ listen evt p = (Returned tt, p, []).
Proof.
  split; [discriminate|].
  apply foreign_origin_is_ignored. discriminate.
Defined.






(** C5. Requests pushed with [sendAsync] while the iframe is not ready are
    only queued, nothing is posted.  The green light then posts them all, in
    the order they were pushed, behind what was queued before.  The drain goes
    round by round: after [k] rounds the first [k] items, and no others, have
    been posted and registered, and the rest is still queued in order, so an
    item is posted and registered before the next one is shifted out. *)
Theorem fifo_across_readiness
    (items : list Item) (evt : MessageEvent) (p : PortisProvider) :
  iframeReady p = false ->
  origin evt = portisClient p ->
  msgType (data evt) = PT_GREEN_LIGHT ->
  let sent := queue p ++ items in
  let p1 := set_queue sent p in
  run (sendAsync_all items) p = (p1, []) /\
  (exists p2,
     listen evt p1 = (Returned tt, p2, posts sent) /\
     iframeReady p2 = true /\ queue p2 = [] /\
     requests p2 = register_all sent (requests p) /\
     dequeue_steps (length sent) (set_iframeReady true p1) = Some (p2, posts sent)) /\
  (forall k, k <= length sent ->
     exists pk,
       dequeue_steps k (set_iframeReady true p1) = Some (pk, posts (take k sent)) /\
       queue pk = drop k sent /\
       requests pk = register_all (take k sent) (requests p)).
Proof.
  intros Hr Ho Ht sent p1. split; [|split].
  - apply run_sendAsync_not_ready. exact Hr.
  - exists (drained (set_iframeReady true p1)).
    rewrite listen_portis by exact Ho.
    unfold switch_msgType. rewrite Ht. simpl.
    rewrite on_green_light_spec. repeat split.
    exact (proj1 (dequeue_is_steps (set_iframeReady true p1))).
  - intros k Hk. exists (drained_to k (set_iframeReady true p1)).
    rewrite dequeue_steps_spec by exact Hk. repeat split.
Qed.

Lemma fifo_across_readiness_witness :
  let a := {| payload := request 1 "eth_accounts"; cb := HostCb 1 |} in
  let b := {| payload := request 2 "net_version"; cb := HostCb 2 |} in
  let c := {| payload := request 3 "eth_sign"; cb := HostCb 3 |} in
  iframeReady fresh = false /\
  snd (run (sendAsync_all [a; b; c] ++ [Deliver (from_portis PT_GREEN_LIGHT None)]) fresh)
  = [PostMessage PT_HANDLE_REQUEST (request 1 "eth_accounts");
     PostMessage PT_HANDLE_REQUEST (request 2 "net_version");
     PostMessage PT_HANDLE_REQUEST (request 3 "eth_sign")] /\
  run (sendAsync_all [a; b; c]) fresh = (set_queue [a; b; c] fresh, []).
Proof.
  split; [reflexivity|]. split; [reflexivity|].
  exact (proj1 (fifo_across_readiness
                  [ {| payload := request 1 "eth_accounts"; cb := HostCb 1 |};
                    {| payload := request 2 "net_version"; cb := HostCb 2 |};
                    {| payload := request 3 "eth_sign"; cb := HostCb 3 |} ]
                  (from_portis PT_GREEN_LIGHT None) fresh
                  eq_refl eq_refl eq_refl)).
Defined.

(** C1, as the code has it.  A response whose id is not a key of [requests]
    (or that has no id, or a message of type response without a response)
    leaves the provider as it was, calls nothing and posts nothing; but the
    lookup [this.requests[id].cb] is not guarded, so the listener ends there
    with a TypeError and does not reach its drain. *)
Theorem response_for_unknown_id_throws (evt : MessageEvent) (p : PortisProvider) :
  origin evt = portisClient p ->
  msgType (data evt) = PT_RESPONSE ->
  (forall r i, response (data evt) = Some r -> Response.id r = Some i ->
               requests p !! i = None) ->
  listen evt p = (Thrown TypeError, p, []).
Proof.
  intros Ho Ht Hid. rewrite listen_portis by exact Ho.
  unfold switch_msgType. rewrite Ht. simpl.
  destruct (response (data evt)) as [r|] eqn:Hr.
  - apply (on_response_unknown evt r p Hr). intros i Hi. exact (Hid r i eq_refl Hi).
  - unfold on_response. rewrite Hr. reflexivity.
Qed.

Lemma response_for_unknown_id_throws_witness :
  let p := fst (run [CallSendAsync (request 1 "eth_accounts") (HostCb 1);
                     CallSendAsync (request 2 "eth_sign") (HostCb 2)] fresh) in
  let evt := from_portis PT_RESPONSE (Some (answer 7 (JStr "0x0"))) in
  (origin evt = portisClient p /\ msgType (data evt) = PT_RESPONSE /\
   requests p !! 7%Z = None) /\
  listen evt p = (Thrown TypeError, p, []).
Proof.
  split; [repeat split|].
  apply response_for_unknown_id_throws; [reflexivity|reflexivity|].
  intros r i [= <-] [= <-]. reflexivity.
Defined.

(** C1 as the specification words it does not hold: the response with the
    unknown id 7 is not passed over in silence, the listener raises. *)
Lemma unknown_id_is_not_silent :
  let p := fst (run [CallSendAsync (request 1 "eth_accounts") (HostCb 1);
                     Deliver (from_portis PT_GREEN_LIGHT None)] fresh) in
  let evt := from_portis PT_RESPONSE (Some (answer 7 (JStr "0x0"))) in
  requests p !! 7%Z = None /\
  fst (fst (listen evt p)) = Thrown TypeError /\
  listen evt p <> (Returned tt, p, []).
Proof. repeat split. discriminate. Qed.

(** C3, as the code has it.  A denial with a non-zero id that is a key of
    [requests] calls one callback, the one registered under that id, with the
    denial error.  No entry leaves [requests], the one that was denied
    included, and the session fields stay.  When the callback returns, the
    drain that ends the case posts every queued item in order and registers
    it, so the queue is empty afterwards.  When the callback raises, as the
    README's does on an error, the listener ends with its exception before
    the drain: nothing is posted and the provider is left as it was. *)
Theorem denial_with_id_then_drains
    (evt : MessageEvent) (p : PortisProvider) (i : Z) (e : Item) :
  origin evt = portisClient p ->
  msgType (data evt) = PT_USER_DENIED ->
  denied_id evt = Some i ->
  i <> 0%Z ->
  requests p !! i = Some e ->
  (throws_on_error (cb e) = false ->
   exists p',
     listen evt p =
       (Returned tt, p', Invoke (cb e) (Some denial) None :: posts (queue p)) /\
     queue p' = [] /\
     requests p' = register_all (queue p) (requests p) /\
     (forall j, is_Some (requests p !! j) -> is_Some (requests p' !! j)) /\
     account p' = account p /\ network p' = network p) /\
  (throws_on_error (cb e) = true ->
   listen evt p =
     (Thrown (raised_by denial_message), p, [Invoke (cb e) (Some denial) None])).
Proof.
  intros Ho Ht Hid Hnz He.
  assert (listen evt p = on_user_denied evt p) as ->.
  { rewrite listen_portis by exact Ho.
    unfold switch_msgType. rewrite Ht. reflexivity. }
  rewrite (on_user_denied_known evt i e p Hid Hnz He).
  split; intros Hcb; rewrite Hcb; [|reflexivity].
  exists (drained p). repeat split.
  intros j Hj. simpl. apply register_all_keeps. exact Hj.
Qed.

Lemma denial_with_id_then_drains_witness :
  let item1 := {| payload := request 1 "eth_sendTransaction"; cb := HostCb 1 |} in
  let item2 := {| payload := request 2 "eth_sign"; cb := HostCb 2 |} in
  let p := pushed item2 (set_requests {[ 1%Z := item1 ]} fresh) in
  let evt := from_portis PT_USER_DENIED (Some (denied (Some 1%Z))) in
  (denied_id evt = Some 1%Z /\ requests p !! 1%Z = Some item1 /\
   throws_on_error (cb item1) = false) /\
  exists p',
    listen evt p =
      (Returned tt, p',
       Invoke (HostCb 1) (Some denial) None :: posts [item2]) /\
    queue p' = [] /\
    requests p' = register_all (queue p) (requests p) /\
    (forall j, is_Some (requests p !! j) -> is_Some (requests p' !! j)) /\
    account p' = account p /\ network p' = network p.
Proof.
  split; [repeat split|].
  refine (proj1 (denial_with_id_then_drains
           (from_portis PT_USER_DENIED (Some (denied (Some 1%Z))))
           (pushed {| payload := request 2 "eth_sign"; cb := HostCb 2 |}
              (set_requests
                 {[ 1%Z := {| payload := request 1 "eth_sendTransaction";
                              cb := HostCb 1 |} ]} fresh))
           1%Z {| payload := request 1 "eth_sendTransaction"; cb := HostCb 1 |}
           eq_refl eq_refl eq_refl _ eq_refl) eq_refl).
  discriminate.
Defined.

(** C3 as the specification words it does not hold.  Request 1 is pending and
    request 2 is queued (the iframe is not ready); the denial of request 1
    posts request 2 and moves it from the queue into [requests]. *)
Lemma denial_with_id_moves_queued_items :
  let item1 := {| payload := request 1 "eth_sendTransaction"; cb := HostCb 1 |} in
  let item2 := {| payload := request 2 "eth_sign"; cb := HostCb 2 |} in
  let p := fst (run [CallSendAsync (payload item1) (cb item1);
                     Deliver (from_portis PT_USER_DENIED None);
                     CallSendAsync (payload item2) (cb item2)] fresh) in
  let evt := from_portis PT_USER_DENIED (Some (denied (Some 1%Z))) in
  (iframeReady p = false /\ queue p = [item2] /\
   requests p !! 1%Z = Some item1 /\ requests p !! 2%Z = None) /\
  snd (listen evt p) =
    [Invoke (HostCb 1) (Some denial) None;
     PostMessage PT_HANDLE_REQUEST (payload item2)] /\
  queue (snd (fst (listen evt p))) = [] /\
  requests (snd (fst (listen evt p))) !! 2%Z = Some item2.
Proof. repeat split. Qed.

(** ** Nothing takes an id out of [requests] *)

Create HintDb keeps.

Lemma keeps_ret {A} (a : A) : keeps (ret a).
Proof. intros p o p' l [= _ <- _] i Hi. exact Hi. Qed.

Lemma keeps_throw {A} (e : Exn) : keeps (@throw A e).
Proof. intros p o p' l [= _ <- _] i Hi. exact Hi. Qed.

Lemma keeps_get : keeps get.
Proof. intros p o p' l [= _ <- _] i Hi. exact Hi. Qed.

Lemma keeps_emit (e : Effect) : keeps (emit e).
Proof. intros p o p' l [= _ <- _] i Hi. exact Hi. Qed.

Lemma keeps_modify (f : PortisProvider -> PortisProvider) :
  (forall p, requests (f p) = requests p) -> keeps (modify f).
Proof. intros Hf p o p' l [= _ <- _] i Hi. rewrite Hf. exact Hi. Qed.

Lemma keeps_bind {A B} (m : M A) (k : A -> M B) :
  keeps m -> (forall a, keeps (k a)) -> keeps (bind m k).
Proof.
  intros Hm Hk p o p' l Hrun i Hi. unfold bind in Hrun.
  destruct (m p) as [[o1 p1] l1] eqn:Hmp.
  pose proof (Hm p o1 p1 l1 Hmp i Hi) as Hi1.
  destruct o1 as [a|e].
  - destruct (k a p1) as [[o2 p2] l2] eqn:Hkp.
    injection Hrun as _ <- _. exact (Hk a p1 o2 p2 l2 Hkp i Hi1).
  - injection Hrun as _ <- _. exact Hi1.
Qed.

Lemma keeps_forEach {A} (f : A -> M unit) (l : list A) :
  (forall x, keeps (f x)) -> keeps (forEach f l).
Proof.
  intros Hf. induction l as [|x l IH]; simpl.
  - apply keeps_ret.
  - apply keeps_bind; [apply Hf|intros _; exact IH].
Qed.

Lemma keeps_dequeue : keeps dequeue.
Proof.
  intros p o p' l Hrun i Hi. rewrite dequeue_spec in Hrun.
  injection Hrun as _ <- _. simpl. apply register_all_keeps. exact Hi.
Qed.

Lemma keeps_request_of id : keeps (request_of id).
Proof.
  intros p o p' l Hrun i Hi. unfold request_of in Hrun.
  destruct id as [j|]; [destruct (requests p !! j)|];
    injection Hrun as _ <- _; exact Hi.
Qed.

Lemma keeps_call_with_error cb message : keeps (call_with_error cb message).
Proof.
  intros p o p' l Hrun i Hi. rewrite call_with_error_spec in Hrun.
  injection Hrun as _ <- _. exact Hi.
Qed.

#[local] Hint Resolve keeps_ret keeps_throw keeps_get keeps_emit keeps_dequeue
  keeps_request_of keeps_call_with_error : keeps.

Ltac keeps_step :=
  match goal with
  | |- keeps (bind _ _) => apply keeps_bind; [|intros ?]
  | |- keeps (modify _) => apply keeps_modify; intros ?; reflexivity
  | |- keeps (forEach _ _) => apply keeps_forEach; intros ?
  | |- keeps (if ?b then _ else _) => destruct b
  | |- keeps (match ?x with _ => _ end) => destruct x
  | |- keeps _ => solve [auto with keeps]
  end.

Lemma keeps_enqueue payload cb : keeps (enqueue payload cb).
Proof. unfold enqueue. repeat keeps_step. Qed.

Lemma keeps_send payload : keeps (send payload).
Proof.
  unfold send, sendAsync. repeat keeps_step; apply keeps_enqueue.
Qed.

Lemma keeps_on_response evt : keeps (on_response evt).
Proof. unfold on_response. repeat keeps_step. Qed.

Lemma keeps_on_user_denied evt : keeps (on_user_denied evt).
Proof. unfold on_user_denied. repeat keeps_step. Qed.

Lemma keeps_on_user_logged_in evt : keeps (on_user_logged_in evt).
Proof. unfold on_user_logged_in. repeat keeps_step. Qed.

Lemma keeps_listen evt : keeps (listen evt).
Proof.
  unfold listen, switch_msgType, on_green_light, showIframe, hideIframe.
  pose proof (keeps_on_response evt). pose proof (keeps_on_user_denied evt).
  pose proof (keeps_on_user_logged_in evt).
  repeat keeps_step; assumption.
Qed.

Lemma keeps_act a : keeps (act a).
Proof.
  destruct a as [payload cb|payload|eventName callback|evt]; simpl.
  - apply keeps_enqueue.
  - apply keeps_bind; [apply keeps_send|intros _; apply keeps_ret].
  - unfold on. apply keeps_modify. intros p. reflexivity.
  - apply keeps_listen.
Qed.

(** C2, as the code has it.  [requests] is a map, so an id has at most one
    entry, and registering under an id replaces what was there.  Nothing ever
    deletes from it: whatever the host page or the iframe does next, an id
    that is a key stays a key.  Each response for a pending id, and each
    denial that names a pending id other than 0, calls the callback then
    registered under it; the entry is still there afterwards, whether the
    callback returned or raised, so a second message calls it again. *)
Theorem pending_entries_are_never_removed
    (p : PortisProvider) (i : Z) (e : Item) :
  requests p !! i = Some e ->
  (forall item,
     requests (register item p) !! Payload.id (payload item) = Some item) /\
  (forall a, is_Some (requests (snd (fst (act a p))) !! i)) /\
  (forall evt r,
     origin evt = portisClient p -> msgType (data evt) = PT_RESPONSE ->
     response (data evt) = Some r -> Response.id r = Some i ->
     exists o p' rest,
       listen evt p = (o, p', Invoke (cb e) None (Some r) :: rest) /\
       is_Some (requests p' !! i)) /\
  (forall evt,
     origin evt = portisClient p -> msgType (data evt) = PT_USER_DENIED ->
     denied_id evt = Some i -> i <> 0%Z ->
     exists o p' rest,
       listen evt p = (o, p', Invoke (cb e) (Some denial) None :: rest) /\
       is_Some (requests p' !! i)).
Proof.
  intros He. split; [|split; [|split]].
  - intros item. unfold register. simpl. apply lookup_insert_eq.
  - intros a. destruct (act a p) as [[o p'] l] eqn:Hrun. simpl.
    apply (keeps_act a p o p' l Hrun). rewrite He. eauto.
  - intros evt r Ho Ht Hr Hid.
    destruct (listen evt p) as [[o p'] l] eqn:Hrun.
    assert (is_Some (requests p' !! i)) as Hkept
      by (apply (keeps_listen evt p o p' l Hrun); rewrite He; eauto).
    rewrite listen_portis in Hrun by exact Ho.
    unfold switch_msgType in Hrun. rewrite Ht in Hrun. simpl in Hrun.
    rewrite (on_response_known evt r i e p Hr Hid He) in Hrun.
    destruct (session_after (Payload.method (payload e)) r p);
      injection Hrun as <- <- <-; eauto 6.
  - intros evt Ho Ht Hid Hnz.
    rewrite listen_portis by exact Ho.
    unfold switch_msgType. rewrite Ht. simpl.
    rewrite (on_user_denied_known evt i e p Hid Hnz He).
    destruct (throws_on_error (cb e)).
    + exists (Thrown (raised_by denial_message)), p, [].
      split; [reflexivity|]. rewrite He. eauto.
    + exists (Returned tt), (drained p), (posts (queue p)).
      split; [reflexivity|]. simpl. apply register_all_keeps. rewrite He. eauto.
Qed.

Lemma pending_entries_are_never_removed_witness :
  let item1 := {| payload := request 1 "eth_accounts"; cb := HostCb 1 |} in
  let p := set_requests {[ 1%Z := item1 ]} fresh in
  requests p !! 1%Z = Some item1 /\
  (forall a, is_Some (requests (snd (fst (act a p))) !! 1%Z)).
Proof.
  split; [reflexivity|].
  exact (proj1 (proj2
    (pending_entries_are_never_removed
       (set_requests
          {[ 1%Z := {| payload := request 1 "eth_accounts"; cb := HostCb 1 |} ]}
          fresh)
       1%Z {| payload := request 1 "eth_accounts"; cb := HostCb 1 |} eq_refl))).
Defined.

(** C2 as the specification words it does not hold.  One request is sent and
    answered twice: its callback is called twice, and after both answers its
    entry is still in [requests]. *)
Lemma second_response_calls_back_again :
  let item1 := {| payload := request 1 "eth_accounts"; cb := HostCb 1 |} in
  let r := answer 1 (JArr [JStr "0xabc"]) in
  let acts := [CallSendAsync (payload item1) (cb item1);
               Deliver (from_portis PT_GREEN_LIGHT None);
               Deliver (from_portis PT_RESPONSE (Some r));
               Deliver (from_portis PT_RESPONSE (Some r))] in
  snd (run acts fresh) =
    [PostMessage PT_HANDLE_REQUEST (payload item1);
     Invoke (HostCb 1) None (Some r);
     Invoke (HostCb 1) None (Some r)] /\
  requests (fst (run acts fresh)) !! 1%Z = Some item1.
Proof. split; reflexivity. Qed.

(** ** [send] and the session fields *)

Lemma send_eth_accounts q p :
  Payload.method q = "eth_accounts" ->
  send q p =
  (Returned {| RpcResult.id := Payload.id q;
               RpcResult.jsonrpc := Payload.jsonrpc q;
               RpcResult.result :=
                 if js_truthy (account p) then JArr [account p] else JArr [] |},
   p, []).
Proof. intros Hm. unfold send. rewrite Hm. reflexivity. Qed.

Lemma send_eth_coinbase q p :
  Payload.method q = "eth_coinbase" ->
  send q p =
  (Returned {| RpcResult.id := Payload.id q;
               RpcResult.jsonrpc := Payload.jsonrpc q;
               RpcResult.result := account p |}, p, []).
Proof. intros Hm. unfold send. rewrite Hm. reflexivity. Qed.

Lemma send_net_version q p :
  Payload.method q = "net_version" ->
  send q p =
  (Returned {| RpcResult.id := Payload.id q;
               RpcResult.jsonrpc := Payload.jsonrpc q;
               RpcResult.result := network p |}, p, []).
Proof. intros Hm. unfold send. rewrite Hm. reflexivity. Qed.

Lemma account_query_not_net_version method :
  is_account_query method = true -> String.eqb method "net_version" = false.
Proof.
  unfold is_account_query. intros H. apply orb_true_iff in H.
  destruct H as [H|H]; apply String.eqb_eq in H; subst; reflexivity.
Qed.

Lemma on_user_denied_session evt p o p' l :
  on_user_denied evt p = (o, p', l) ->
  account p' = account p /\ network p' = network p.
Proof.
  intros Hrun. destruct (id_truthy (denied_id evt)) eqn:Htr.
  - destruct (denied_id evt) as [i|] eqn:Hid; [|discriminate].
    simpl in Htr. destruct (Z.eqb_spec i 0) as [|Hnz]; [discriminate|].
    destruct (requests p !! i) as [e|] eqn:He.
    + rewrite (on_user_denied_known evt i e p Hid Hnz He) in Hrun.
      destruct (throws_on_error (cb e));
        injection Hrun as _ <- _; split; reflexivity.
    + rewrite on_user_denied_unknown in Hrun.
      * injection Hrun as _ <- _. split; reflexivity.
      * rewrite Hid. simpl. destruct (Z.eqb_spec i 0); done.
      * intros j Hj. congruence.
  - rewrite (on_user_denied_broadcast evt p Htr) in Hrun.
    destruct (snd (denied_until_throw (queue p)));
      injection Hrun as _ <- _; split; reflexivity.
Qed.

(** C9, as the code has it.  A response to a pending account query
    ([eth_accounts] or [eth_coinbase]) whose result can be indexed sets
    [account] to [result[0]] and leaves [network]; a response to a pending
    [net_version] sets [network] to the result and leaves [account].  The
    synchronous [send] then serves the new value: [eth_coinbase] returns the
    account, [eth_accounts] the account in a list, or the empty list when the
    account is falsy, [net_version] the network.  A denial sets neither
    field, whatever it carries: the fields are written in the response case
    alone. *)
Theorem response_sets_session
    (evt : MessageEvent) (p : PortisProvider) (r : Response.t) (i : Z) (e : Item) :
  origin evt = portisClient p ->
  msgType (data evt) = PT_RESPONSE ->
  response (data evt) = Some r ->
  Response.id r = Some i ->
  requests p !! i = Some e ->
  (forall v,
     is_account_query (Payload.method (payload e)) = true ->
     js_index0 (Response.result r) = Some v ->
     exists p',
       listen evt p =
         (Returned tt, p', Invoke (cb e) None (Some r) :: posts (queue p)) /\
       account p' = v /\ network p' = network p /\
       (forall q, Payload.method q = "eth_coinbase" ->
          send q p' =
          (Returned {| RpcResult.id := Payload.id q;
                       RpcResult.jsonrpc := Payload.jsonrpc q;
                       RpcResult.result := v |}, p', [])) /\
       (forall q, Payload.method q = "eth_accounts" ->
          send q p' =
          (Returned {| RpcResult.id := Payload.id q;
                       RpcResult.jsonrpc := Payload.jsonrpc q;
                       RpcResult.result :=
                         if js_truthy v then JArr [v] else JArr [] |}, p', []))) /\
  (Payload.method (payload e) = "net_version" ->
     exists p',
       listen evt p =
         (Returned tt, p', Invoke (cb e) None (Some r) :: posts (queue p)) /\
       network p' = Response.result r /\ account p' = account p /\
       (forall q, Payload.method q = "net_version" ->
          send q p' =
          (Returned {| RpcResult.id := Payload.id q;
                       RpcResult.jsonrpc := Payload.jsonrpc q;
                       RpcResult.result := Response.result r |}, p', []))) /\
  (forall evt' o p' l,
     msgType (data evt') = PT_USER_DENIED ->
     listen evt' p = (o, p', l) ->
     account p' = account p /\ network p' = network p).
Proof.
  intros Ho Ht Hr Hid He.
  assert (listen evt p = on_response evt p) as Hl.
  { rewrite listen_portis by exact Ho. unfold switch_msgType.
    rewrite Ht. reflexivity. }
  rewrite Hl, (on_response_known evt r i e p Hr Hid He).
  split; [|split].
  - intros v Hq Hv. unfold session_after.
    rewrite Hq, Hv, (account_query_not_net_version _ Hq). simpl.
    exists (drained (set_account v p)). repeat split.
    + intros q Hm. rewrite (send_eth_coinbase q _ Hm). reflexivity.
    + intros q Hm. rewrite (send_eth_accounts q _ Hm). reflexivity.
  - intros Hm. unfold session_after. rewrite Hm. simpl.
    exists (drained (set_network (Response.result r) p)). repeat split.
    intros q Hq. rewrite (send_net_version q _ Hq). reflexivity.
  - intros evt' o p' l Ht' Hrun.
    destruct (String.eqb_spec (origin evt') (portisClient p)) as [Ho'|Ho'].
    + rewrite listen_portis in Hrun by exact Ho'.
      unfold switch_msgType in Hrun. rewrite Ht' in Hrun. simpl in Hrun.
      exact (on_user_denied_session evt' p o p' l Hrun).
    + rewrite listen_foreign in Hrun by exact Ho'.
      injection Hrun as _ <- _. split; reflexivity.
Qed.

Lemma response_sets_session_witness :
  let item1 := {| payload := request 1 "eth_accounts"; cb := HostCb 1 |} in
  let p := set_requests {[ 1%Z := item1 ]} fresh in
  let r := answer 1 (JArr [JStr "0xabc"]) in
  let evt := from_portis PT_RESPONSE (Some r) in
  (requests p !! 1%Z = Some item1 /\
   js_index0 (Response.result r) = Some (JStr "0xabc")) /\
  exists p',
    listen evt p = (Returned tt, p', Invoke (HostCb 1) None (Some r) :: posts (queue p)) /\
    account p' = JStr "0xabc" /\ network p' = network p /\
    (forall q, Payload.method q = "eth_coinbase" ->
       send q p' =
       (Returned {| RpcResult.id := Payload.id q;
                    RpcResult.jsonrpc := Payload.jsonrpc q;
                    RpcResult.result := JStr "0xabc" |}, p', [])) /\
    (forall q, Payload.method q = "eth_accounts" ->
       send q p' =
       (Returned {| RpcResult.id := Payload.id q;
                    RpcResult.jsonrpc := Payload.jsonrpc q;
                    RpcResult.result := JArr [JStr "0xabc"] |}, p', [])).
Proof.
  split; [split; reflexivity|].
  exact (proj1
    (response_sets_session
       (from_portis PT_RESPONSE (Some (answer 1 (JArr [JStr "0xabc"]))))
       (set_requests
          {[ 1%Z := {| payload := request 1 "eth_accounts"; cb := HostCb 1 |} ]}
          fresh)
       (answer 1 (JArr [JStr "0xabc"])) 1%Z
       {| payload := request 1 "eth_accounts"; cb := HostCb 1 |}
       eq_refl eq_refl eq_refl eq_refl eq_refl)
    (JStr "0xabc") eq_refl eq_refl).
Defined.

(** C9 as the specification words it does not hold for a denial.  The account
    query 1 is pending and is denied by a message that carries a result: the
    account stays [null], and [send] of [eth_accounts] still returns the
    empty list. *)
Lemma denial_does_not_set_account :
  let item1 := {| payload := request 1 "eth_accounts"; cb := HostCb 1 |} in
  let p := fst (run [CallSendAsync (payload item1) (cb item1);
                     Deliver (from_portis PT_GREEN_LIGHT None)] fresh) in
  let evt := from_portis PT_USER_DENIED (Some (answer 1 (JArr [JStr "0xdef"]))) in
  requests p !! 1%Z = Some item1 /\
  listen evt p = (Returned tt, p, [Invoke (HostCb 1) (Some denial) None]) /\
  js_index0 (JArr [JStr "0xdef"]) = Some (JStr "0xdef") /\
  account p = JNull /\
  fst (fst (send (request 9 "eth_accounts") p)) =
    Returned {| RpcResult.id := 9; RpcResult.jsonrpc := "2.0";
                RpcResult.result := JArr [] |}.
Proof. repeat split. Qed.

(** C7. [send] answers four methods from the fields of the provider and
    leaves it untouched for the first three: [eth_accounts] with the account
    in a list (the empty list while the account is falsy), [eth_coinbase]
    with the account, [net_version] with the network.  [eth_uninstallFilter]
    is answered [true] after the request was handed to [sendAsync] with the
    callback [_ => _]: it is queued, and posted at once when the iframe is
    ready.  Every other method raises the error that names it; nothing is
    queued or posted and the provider is as it was. *)
Theorem send_serves_allow_list (q : Payload.t) (p : PortisProvider) :
  let reply result :=
    {| RpcResult.id := Payload.id q; RpcResult.jsonrpc := Payload.jsonrpc q;
       RpcResult.result := result |} in
  (Payload.method q = "eth_accounts" ->
   send q p =
   (Returned (reply (if js_truthy (account p) then JArr [account p] else JArr [])),
    p, [])) /\
  (Payload.method q = "eth_coinbase" ->
   send q p = (Returned (reply (account p)), p, [])) /\
  (Payload.method q = "net_version" ->
   send q p = (Returned (reply (network p)), p, [])) /\
  (Payload.method q = "eth_uninstallFilter" ->
   send q p =
   let p1 := pushed {| payload := q; cb := IdentityCb |} p in
   if iframeReady p
   then (Returned (reply (JBool true)), drained p1, posts (queue p1))
   else (Returned (reply (JBool true)), p1, [])) /\
  (Payload.method q <> "eth_accounts" ->
   Payload.method q <> "eth_coinbase" ->
   Payload.method q <> "net_version" ->
   Payload.method q <> "eth_uninstallFilter" ->
   send q p = (Thrown (unsupported (Payload.method q)), p, [])).
Proof.
  intros reply. repeat split.
  - apply send_eth_accounts.
  - apply send_eth_coinbase.
  - apply send_net_version.
  - intros Hm. unfold send, sendAsync. rewrite Hm. simpl.
    unfold bind at 1. unfold bind at 1. rewrite enqueue_spec.
    destruct (iframeReady p); simpl; rewrite ?app_nil_r; reflexivity.
  - intros H1 H2 H3 H4. unfold send.
    destruct (String.eqb_spec (Payload.method q) "eth_accounts"); [done|].
    destruct (String.eqb_spec (Payload.method q) "eth_coinbase"); [done|].
    destruct (String.eqb_spec (Payload.method q) "net_version"); [done|].
    destruct (String.eqb_spec (Payload.method q) "eth_uninstallFilter"); [done|].
    reflexivity.
Qed.

(** C8. The constructor raises in two cases and in no other: the page is not
    on localhost and [apiKey] is missing, or [infuraApiKey] and
    [providerNodeUrl] are both given (an option counts as given when it is a
    non-empty string, which is how the code tests it).  When it raises, the
    fields are still the initial ones and no iframe was asked for; otherwise
    it returns after asking for the iframe and installing the listener. *)
Theorem constructor_throws_on_bad_options (isLocalhost : bool) (opts : Opts) :
  let bad :=
    (negb isLocalhost && negb (provided (apiKey opts))) ||
    (provided (infuraApiKey opts) && provided (providerNodeUrl opts)) in
  (bad = true ->
   exists e, new_PortisProvider isLocalhost opts = (Thrown e, fresh, [])) /\
  (bad = false ->
   exists p,
     new_PortisProvider isLocalhost opts =
     (Returned tt, p, [CreateIframe; AddMessageListener])).
Proof.
  unfold new_PortisProvider, constructor.
  destruct isLocalhost, (provided (apiKey opts)),
    (provided (infuraApiKey opts)), (provided (providerNodeUrl opts));
    simpl; split; intros Hbad; try discriminate; eexists; reflexivity.
Qed.

(** ** The scenarios of the README and of the protocol, run *)

(** A request sent before the green light is posted once when it comes, and
    is then in [requests] and no longer queued. *)
Example queued_request_is_posted_once :
  let item1 := {| payload := request 1 "eth_accounts"; cb := HostCb 1 |} in
  let acts := [CallSendAsync (payload item1) (cb item1);
               Deliver (from_portis PT_GREEN_LIGHT None)] in
  snd (run acts fresh) = [PostMessage PT_HANDLE_REQUEST (payload item1)] /\
  requests (fst (run acts fresh)) !! 1%Z = Some item1 /\
  queue (fst (run acts fresh)) = [].
Proof. repeat split. Qed.

(** The answer to [eth_accounts] reaches the callback, and [send] then
    returns the account. *)
Example answered_account_is_served :
  let item1 := {| payload := request 1 "eth_accounts"; cb := HostCb 1 |} in
  let r := answer 1 (JArr [JStr "0xabc"]) in
  let p := fst (run [CallSendAsync (payload item1) (cb item1);
                     Deliver (from_portis PT_GREEN_LIGHT None);
                     Deliver (from_portis PT_RESPONSE (Some r))] fresh) in
  fst (fst (send (request 2 "eth_accounts") p)) =
    Returned {| RpcResult.id := 2; RpcResult.jsonrpc := "2.0";
                RpcResult.result := JArr [JStr "0xabc"] |}.
Proof. reflexivity. Qed.

(** The number 0 is falsy: a denial that names the id 0 takes the branch of
    the denial without id, and the entry pending under 0 is not called. *)
Example denial_of_id_zero_is_a_broadcast :
  let item0 := {| payload := request 0 "eth_sign"; cb := HostCb 0 |} in
  let item1 := {| payload := request 1 "eth_sign"; cb := HostCb 1 |} in
  let p := pushed item1 (set_requests {[ 0%Z := item0 ]} fresh) in
  listen (from_portis PT_USER_DENIED (Some (denied (Some 0%Z)))) p =
    (Returned tt, drained p,
     [Invoke (HostCb 1) (Some denial) None;
      PostMessage PT_HANDLE_REQUEST (payload item1)]).
Proof. reflexivity. Qed.

(** A response without a result to an account query raises at [result[0]],
    after the callback was called and before the drain. *)
Example account_answer_without_result_throws :
  let item1 := {| payload := request 1 "eth_accounts"; cb := HostCb 1 |} in
  let item2 := {| payload := request 2 "eth_sign"; cb := HostCb 2 |} in
  let p := pushed item2 (set_requests {[ 1%Z := item1 ]} fresh) in
  let r := answer 1 JUndefined in
  listen (from_portis PT_RESPONSE (Some r)) p =
    (Thrown TypeError, p, [Invoke (HostCb 1) None (Some r)]).
Proof. reflexivity. Qed.

(** Both node options at once: the constructor raises and asks for no
    iframe; with an API key alone it goes through. *)
Example constructor_scenarios :
  new_PortisProvider false
    {| apiKey := Some "k1"; opts_network := Some "ropsten";
       infuraApiKey := Some "i"; providerNodeUrl := Some "http://localhost:8545" |}
  = (Thrown both_nodes, fresh, []) /\
  new_PortisProvider false
    {| apiKey := None; opts_network := None;
       infuraApiKey := None; providerNodeUrl := None |}
  = (Thrown missing_apiKey, fresh, []) /\
  new_PortisProvider false
    {| apiKey := Some "k1"; opts_network := Some "ropsten";
       infuraApiKey := None; providerNodeUrl := None |}
  = (Returned tt,
     set_referrerAppOptions
       {| opt_sdkVersion := "1.2.9"; opt_network := "ropsten";
          opt_apiKey := Some "k1"; opt_infuraApiKey := None;
          opt_providerNodeUrl := None |} fresh,
     [CreateIframe; AddMessageListener]).
Proof. repeat split. Qed.

(** ** Relations that every method respects *)

Section Respects.

Variable R : PortisProvider -> PortisProvider -> list Effect -> Prop.
Hypothesis R_refl : forall p, R p p [].
Hypothesis R_trans : forall p1 p2 p3 l1 l2,
  R p1 p2 l1 -> R p2 p3 l2 -> R p1 p3 (l1 ++ l2).

Lemma respects_ret {A} (a : A) : respects R (ret a).
Proof. intros p o p' l [= _ <- <-]. apply R_refl. Qed.

Lemma respects_throw {A} (e : Exn) : respects R (@throw A e).
Proof. intros p o p' l [= _ <- <-]. apply R_refl. Qed.

Lemma respects_get : respects R get.
Proof. intros p o p' l [= _ <- <-]. apply R_refl. Qed.

Lemma respects_request_of id : respects R (request_of id).
Proof.
  intros p o p' l Hrun. unfold request_of in Hrun.
  destruct id as [j|]; [destruct (requests p !! j)|];
    injection Hrun as _ <- <-; apply R_refl.
Qed.

Lemma respects_bind {A B} (m : M A) (k : A -> M B) :
  respects R m -> (forall a, respects R (k a)) -> respects R (bind m k).
Proof.
  intros Hm Hk p o p' l Hrun. unfold bind in Hrun.
  destruct (m p) as [[o1 p1] l1] eqn:Hmp.
  pose proof (Hm p o1 p1 l1 Hmp) as H1.
  destruct o1 as [a|e].
  - destruct (k a p1) as [[o2 p2] l2] eqn:Hkp.
    injection Hrun as _ <- <-.
    exact (R_trans _ _ _ _ _ H1 (Hk a p1 o2 p2 l2 Hkp)).
  - injection Hrun as _ <- <-. exact H1.
Qed.

Lemma respects_forEach {A} (f : A -> M unit) (l : list A) :
  (forall x, respects R (f x)) -> respects R (forEach f l).
Proof.
  intros Hf. induction l as [|x l IH]; simpl.
  - apply respects_ret.
  - apply respects_bind; [apply Hf|intros _; exact IH].
Qed.

Lemma respects_modify (f : PortisProvider -> PortisProvider) :
  (forall p, R p (f p) []) -> respects R (modify f).
Proof. intros Hf p o p' l [= _ <- <-]. apply Hf. Qed.

(** The effects the methods emit themselves are calls of callbacks and of
    [showIframe] and [hideIframe]; posts come from [dequeue] alone. *)
Hypothesis R_emit : forall p e, is_post e = false -> R p p [e].
Hypothesis R_dequeue : forall p, R p (drained p) (posts (queue p)).

Lemma respects_emit e : is_post e = false -> respects R (emit e).
Proof. intros He p o p' l [= _ <- <-]. apply R_emit. exact He. Qed.

Lemma respects_dequeue : respects R dequeue.
Proof.
  intros p o p' l Hrun. rewrite dequeue_spec in Hrun.
  injection Hrun as _ <- <-. apply R_dequeue.
Qed.

Lemma respects_call_with_error cb message :
  respects R (call_with_error cb message).
Proof.
  intros p o p' l Hrun. rewrite call_with_error_spec in Hrun.
  injection Hrun as _ <- <-. apply R_emit. reflexivity.
Qed.

Ltac respects_step :=
  match goal with
  | |- respects _ (bind _ _) => apply respects_bind; [|intros ?]
  | |- respects _ (forEach _ _) => apply respects_forEach; intros ?
  | |- respects _ (if ?b then _ else _) => destruct b
  | |- respects _ (match ?x with _ => _ end) => destruct x
  | |- respects _ (emit _) => apply respects_emit; reflexivity
  | |- respects _ (ret _) => apply respects_ret
  | |- respects _ (throw _) => apply respects_throw
  | |- respects _ get => apply respects_get
  | |- respects _ (request_of _) => apply respects_request_of
  | |- respects _ dequeue => apply respects_dequeue
  | |- respects _ (call_with_error _ _) => apply respects_call_with_error
  | |- respects _ _ => assumption
  end.

Lemma respects_on_user_denied evt : respects R (on_user_denied evt).
Proof. unfold on_user_denied. repeat respects_step. Qed.

Lemma respects_on_user_logged_in evt : respects R (on_user_logged_in evt).
Proof. unfold on_user_logged_in. repeat respects_step. Qed.

Lemma respects_on_response :
  (forall p v, R p (set_account v p) []) ->
  (forall p v, R p (set_network v p) []) ->
  forall evt, respects R (on_response evt).
Proof.
  intros Ha Hn evt. unfold on_response.
  repeat first [respects_step | apply respects_modify; intros ?; auto].
Qed.

Lemma respects_on_green_light :
  (forall p, R p (set_iframeReady true p) []) -> respects R on_green_light.
Proof.
  intros Hr. unfold on_green_light.
  apply respects_bind; [apply respects_modify; exact Hr|].
  intros _. apply respects_dequeue.
Qed.

Lemma respects_enqueue :
  (forall p item, R p (pushed item p) []) ->
  forall payload cb, respects R (enqueue payload cb).
Proof.
  intros Hp payload cb. unfold enqueue.
  apply respects_bind; [apply respects_modify; intros p; apply Hp|].
  intros _. repeat respects_step.
Qed.

Lemma respects_listen :
  respects R on_green_light ->
  (forall evt, respects R (on_response evt)) ->
  forall evt, respects R (listen evt).
Proof.
  intros Hg Hr evt. pose proof (Hr evt).
  pose proof (respects_on_user_denied evt).
  pose proof (respects_on_user_logged_in evt).
  unfold listen, switch_msgType, showIframe, hideIframe.
  repeat respects_step.
Qed.

(** The listener on a message that is no green light, and on one that is no
    response. *)
Lemma respects_listen_no_green evt :
  String.eqb (msgType (data evt)) PT_GREEN_LIGHT = false ->
  respects R (on_response evt) ->
  respects R (listen evt).
Proof.
  intros Ht Hr.
  pose proof (respects_on_user_denied evt).
  pose proof (respects_on_user_logged_in evt).
  unfold listen, switch_msgType, showIframe, hideIframe. rewrite Ht.
  repeat respects_step.
Qed.

Lemma respects_listen_no_response evt :
  String.eqb (msgType (data evt)) PT_RESPONSE = false ->
  respects R on_green_light ->
  respects R (listen evt).
Proof.
  intros Ht Hg.
  pose proof (respects_on_user_denied evt).
  pose proof (respects_on_user_logged_in evt).
  unfold listen, switch_msgType, showIframe, hideIframe. rewrite Ht.
  repeat respects_step.
Qed.

Lemma respects_send :
  (forall payload cb, respects R (enqueue payload cb)) ->
  forall payload, respects R (send payload).
Proof.
  intros He payload. pose proof (He payload IdentityCb).
  unfold send, sendAsync. repeat respects_step.
Qed.

Lemma respects_act :
  (forall payload cb, respects R (enqueue payload cb)) ->
  (forall evt, respects R (listen evt)) ->
  (forall p ev, R p (set_events ev p) []) ->
  forall a, respects R (act a).
Proof.
  intros He Hl Hev a.
  destruct a as [payload cb|payload|eventName callback|evt]; simpl.
  - apply He.
  - apply respects_bind; [apply respects_send; exact He|].
    intros _. apply respects_ret.
  - unfold on. apply respects_modify. intros p. apply Hev.
  - apply Hl.
Qed.

Lemma respects_run :
  (forall a, respects R (act a)) ->
  forall acts p, R p (fst (run acts p)) (snd (run acts p)).
Proof.
  intros Ha acts. induction acts as [|a acts IH]; intros p; simpl.
  - apply R_refl.
  - destruct (act a p) as [[o p1] l1] eqn:Hrun.
    pose proof (IH p1) as H2.
    destruct (run acts p1) as [p2 l2]. simpl in *.
    exact (R_trans _ _ _ _ _ (Ha a p o p1 l1 Hrun) H2).
Qed.

End Respects.

(** ** The readiness flag and the session fields *)

Lemma drained_empty p : queue p = [] -> drained p = p.
Proof.
  intros Hq. unfold drained. rewrite Hq. simpl.
  destruct p; simpl in *; subst; reflexivity.
Qed.

(** X1. [iframeReady] is set by a green light from the trusted origin and by
    nothing else, and nothing ever clears it: after any call or message the
    flag is what it was, or true when the action was such a green light. *)
Theorem readiness_is_set_by_green_light_only (a : Action) (p : PortisProvider) :
  iframeReady (snd (fst (act a p))) = iframeReady p || is_green_light a p.
Proof.
  set (R := fun (p p' : PortisProvider) (_ : list Effect) =>
              iframeReady p' = iframeReady p).
  assert (forall q, R q q []) as Hrefl by reflexivity.
  assert (forall p1 p2 p3 l1 l2, R p1 p2 l1 -> R p2 p3 l2 -> R p1 p3 (l1 ++ l2))
    as Htrans by (unfold R; intros; congruence).
  assert (forall q e, is_post e = false -> R q q [e]) as Hemit by reflexivity.
  assert (forall q, R q (drained q) (posts (queue q))) as Hdeq by reflexivity.
  assert (forall payload cb, respects R (enqueue payload cb)) as Henq
    by (apply respects_enqueue; auto; reflexivity).
  assert (forall evt, respects R (on_response evt)) as Hresp
    by (apply respects_on_response; auto; reflexivity).
  destruct (is_green_light a p) eqn:Hg.
  - destruct a as [| | |evt]; try discriminate. simpl in Hg.
    apply andb_true_iff in Hg. destruct Hg as [Ho Ht].
    apply String.eqb_eq in Ho. apply String.eqb_eq in Ht.
    simpl. rewrite listen_portis by exact Ho.
    unfold switch_msgType. rewrite Ht. simpl.
    rewrite on_green_light_spec. simpl. rewrite orb_true_r. reflexivity.
  - rewrite orb_false_r.
    destruct (act a p) as [[o p'] l] eqn:Hrun. simpl.
    destruct a as [payload cb|payload|eventName callback|evt]; simpl in Hrun.
    + exact (Henq payload cb p o p' l Hrun).
    + refine (respects_bind R Htrans _ _ _ _ p o p' l Hrun).
      * apply respects_send; auto.
      * intros _. apply respects_ret; auto.
    + unfold on in Hrun. injection Hrun as _ <- _. reflexivity.
    + simpl in Hg. apply andb_false_iff in Hg. destruct Hg as [Ho|Ht].
      * apply String.eqb_neq in Ho.
        rewrite listen_foreign in Hrun by exact Ho.
        injection Hrun as _ <- _. reflexivity.
      * exact (respects_listen_no_green R Hrefl Htrans Hemit Hdeq evt Ht
                 (Hresp evt) p o p' l Hrun).
Qed.

(** X2. [account] and [network] are written by a response from the trusted
    origin and by nothing else: every other call or message, a denial and a
    green light included, leaves both as they were. *)
Theorem session_changes_only_by_response (a : Action) (p : PortisProvider) :
  is_response a p = false ->
  account (snd (fst (act a p))) = account p /\
  network (snd (fst (act a p))) = network p.
Proof.
  intros Hnr.
  set (R := fun (p p' : PortisProvider) (_ : list Effect) =>
              account p' = account p /\ network p' = network p).
  assert (forall q, R q q []) as Hrefl by (split; reflexivity).
  assert (forall p1 p2 p3 l1 l2, R p1 p2 l1 -> R p2 p3 l2 -> R p1 p3 (l1 ++ l2))
    as Htrans by (unfold R; intros ? ? ? ? ? [? ?] [? ?]; split; congruence).
  assert (forall q e, is_post e = false -> R q q [e]) as Hemit
    by (split; reflexivity).
  assert (forall q, R q (drained q) (posts (queue q))) as Hdeq
    by (split; reflexivity).
  assert (forall payload cb, respects R (enqueue payload cb)) as Henq
    by (apply respects_enqueue; auto; split; reflexivity).
  assert (respects R on_green_light) as Hgreen
    by (apply respects_on_green_light; auto; split; reflexivity).
  destruct (act a p) as [[o p'] l] eqn:Hrun. simpl.
  destruct a as [payload cb|payload|eventName callback|evt]; simpl in Hrun.
  - exact (Henq payload cb p o p' l Hrun).
  - refine (respects_bind R Htrans _ _ _ _ p o p' l Hrun).
    + apply respects_send; auto.
    + intros _. apply respects_ret; auto.
  - unfold on in Hrun. injection Hrun as _ <- _. split; reflexivity.
  - simpl in Hnr. apply andb_false_iff in Hnr. destruct Hnr as [Ho|Ht].
    + apply String.eqb_neq in Ho.
      rewrite listen_foreign in Hrun by exact Ho.
      injection Hrun as _ <- _. split; reflexivity.
    + exact (respects_listen_no_response R Hrefl Htrans Hemit Hdeq evt Ht
               Hgreen p o p' l Hrun).
Qed.

Lemma session_changes_only_by_response_witness :
  let item1 := {| payload := request 1 "eth_accounts"; cb := HostCb 1 |} in
  let p := set_account (JStr "0xabc") (set_requests {[ 1%Z := item1 ]} fresh) in
  let a := Deliver (from_portis PT_USER_DENIED (Some (answer 1 (JArr [JStr "0xdef"])))) in
  is_response a p = false /\
  account (snd (fst (act a p))) = account p /\
  network (snd (fst (act a p))) = network p.
Proof.
  split; [reflexivity|].
  apply (session_changes_only_by_response
           (Deliver (from_portis PT_USER_DENIED
                       (Some (answer 1 (JArr [JStr "0xdef"])))))
           (set_account (JStr "0xabc")
              (set_requests
                 {[ 1%Z := {| payload := request 1 "eth_accounts";
                              cb := HostCb 1 |} ]} fresh))).
  reflexivity.
Defined.

(** ** The queue, the posts and the pending map along a run *)

Lemma posts_app q1 q2 : posts (q1 ++ q2) = posts q1 ++ posts q2.
Proof. unfold posts. apply map_app. Qed.

Lemma post_effects_app l1 l2 :
  post_effects (l1 ++ l2) = post_effects l1 ++ post_effects l2.
Proof. unfold post_effects. apply List.filter_app. Qed.

Lemma post_effects_posts q : post_effects (posts q) = posts q.
Proof.
  induction q as [|item q IH]; simpl; [reflexivity|].
  unfold post_effects in *. simpl. rewrite IH. reflexivity.
Qed.

Lemma register_all_lookup q : forall (m : gmap Z Item) i e,
  register_all q m !! i = Some e ->
  m !! i = Some e \/ (In e q /\ Payload.id (payload e) = i).
Proof.
  induction q as [|item q IH]; intros m i e He; simpl in *; [left; exact He|].
  destruct (IH _ _ _ He) as [Hm|[Hin Hid]].
  - destruct (decide (Payload.id (payload item) = i)) as [Heq|Hne].
    + subst i. rewrite lookup_insert_eq in Hm. injection Hm as <-.
      right. split; [left; reflexivity|reflexivity].
    + rewrite lookup_insert_ne in Hm by exact Hne. left. exact Hm.
  - right. split; [right; exact Hin|exact Hid].
Qed.

Lemma send_uninstallFilter q p :
  Payload.method q = "eth_uninstallFilter" ->
  send q p =
  let p1 := pushed {| payload := q; cb := IdentityCb |} p in
  let reply := {| RpcResult.id := Payload.id q;
                  RpcResult.jsonrpc := Payload.jsonrpc q;
                  RpcResult.result := JBool true |} in
  if iframeReady p
  then (Returned reply, drained p1, posts (queue p1))
  else (Returned reply, p1, []).
Proof.
  intros Hm. unfold send, sendAsync. rewrite Hm. simpl.
  unfold bind at 1. unfold bind at 1. rewrite enqueue_spec.
  destruct (iframeReady p); simpl; rewrite ?app_nil_r; reflexivity.
Qed.

Lemma send_without_enqueue q p :
  String.eqb (Payload.method q) "eth_uninstallFilter" = false ->
  exists o, send q p = (o, p, []).
Proof.
  intros Hm. unfold send.
  destruct (String.eqb (Payload.method q) "eth_accounts");
    [eexists; reflexivity|].
  destruct (String.eqb (Payload.method q) "eth_coinbase");
    [eexists; reflexivity|].
  destruct (String.eqb (Payload.method q) "net_version");
    [eexists; reflexivity|].
  rewrite Hm. eexists. reflexivity.
Qed.

Lemma act_keeps_ready_queue_empty (a : Action) (p : PortisProvider) :
  ready_queue_empty p ->
  ready_queue_empty (snd (fst (act a p))).
Proof.
  set (R := fun (p p' : PortisProvider) (_ : list Effect) =>
              ready_queue_empty p -> ready_queue_empty p').
  assert (forall q, R q q []) as Hrefl by (intros q H; exact H).
  assert (forall p1 p2 p3 l1 l2, R p1 p2 l1 -> R p2 p3 l2 -> R p1 p3 (l1 ++ l2))
    as Htrans by (unfold R; auto).
  assert (forall q e, is_post e = false -> R q q [e]) as Hemit
    by (intros q e _ H; exact H).
  assert (forall q, R q (drained q) (posts (queue q))) as Hdeq
    by (intros q _ _; reflexivity).
  assert (forall payload cb, respects R (enqueue payload cb)) as Henq.
  { intros payload cb q o q' l Hrun Hinv. rewrite enqueue_spec in Hrun.
    simpl in Hrun. destruct (iframeReady q) eqn:Hr;
      injection Hrun as _ <- _; intros Hr'; simpl in *; [reflexivity|].
    congruence. }
  assert (respects R on_green_light) as Hgreen.
  { intros q o q' l Hrun _ _. rewrite on_green_light_spec in Hrun.
    injection Hrun as _ <- _. reflexivity. }
  assert (forall evt, respects R (on_response evt)) as Hresp
    by (apply respects_on_response; auto; intros q v H; exact H).
  assert (respects R (act a)) as Hact.
  { apply respects_act; auto.
    - apply respects_listen; auto.
    - intros q ev H. exact H. }
  destruct (act a p) as [[o p'] l] eqn:Hrun. simpl.
  exact (Hact p o p' l Hrun).
Qed.

(** X3. Once the iframe is ready nothing waits in the queue: a provider whose
    queue is empty whenever its flag is set keeps that through every call
    and every message, so it holds all along the life of a new provider. *)
Theorem ready_provider_has_empty_queue (acts : list Action) (p : PortisProvider) :
  ready_queue_empty p ->
  ready_queue_empty (fst (run acts p)).
Proof.
  revert p. induction acts as [|a acts IH]; intros p Hp; simpl.
  - exact Hp.
  - pose proof (act_keeps_ready_queue_empty a p Hp) as Ha.
    destruct (act a p) as [[o p1] l1]. simpl in Ha.
    pose proof (IH p1 Ha) as Hrest.
    destruct (run acts p1) as [p2 l2]. exact Hrest.
Qed.

Lemma ready_provider_has_empty_queue_witness :
  let acts := [CallSendAsync (request 1 "eth_accounts") (HostCb 1);
               Deliver (from_portis PT_GREEN_LIGHT None);
               CallSendAsync (request 2 "eth_sign") (HostCb 2);
               CallSend (request 3 "eth_uninstallFilter")] in
  iframeReady (fst (run acts fresh)) = true /\
  ready_queue_empty (fst (run acts fresh)).
Proof.
  split; [reflexivity|].
  apply (ready_provider_has_empty_queue
           [CallSendAsync (request 1 "eth_accounts") (HostCb 1);
            Deliver (from_portis PT_GREEN_LIGHT None);
            CallSendAsync (request 2 "eth_sign") (HostCb 2);
            CallSend (request 3 "eth_uninstallFilter")] fresh).
  intros H. discriminate H.
Defined.

Lemma act_conserves a p :
  post_effects (snd (act a p)) ++ posts (queue (snd (fst (act a p)))) =
  posts (queue p ++ enqueued_by a).
Proof.
  set (R := fun (p p' : PortisProvider) (l : list Effect) =>
              post_effects l ++ posts (queue p') = posts (queue p)).
  assert (forall q, R q q []) as Hrefl by reflexivity.
  assert (forall p1 p2 p3 l1 l2, R p1 p2 l1 -> R p2 p3 l2 -> R p1 p3 (l1 ++ l2))
    as Htrans.
  { unfold R. intros p1 p2 p3 l1 l2 H1 H2.
    rewrite post_effects_app, <- app_assoc, H2. exact H1. }
  assert (forall q e, is_post e = false -> R q q [e]) as Hemit.
  { intros q e He. unfold R, post_effects. simpl. rewrite He. reflexivity. }
  assert (forall q, R q (drained q) (posts (queue q))) as Hdeq.
  { intros q. unfold R. rewrite post_effects_posts. simpl. apply app_nil_r. }
  destruct a as [payload cb|payload|eventName callback|evt];
    cbn [act enqueued_by].
  - unfold sendAsync. rewrite enqueue_spec. cbv zeta.
    destruct (iframeReady p); cbn [fst snd].
    + rewrite post_effects_posts. simpl. apply app_nil_r.
    + reflexivity.
  - unfold bind, ret.
    destruct (String.eqb (Payload.method payload) "eth_uninstallFilter") eqn:Hm.
    + apply String.eqb_eq in Hm. rewrite (send_uninstallFilter payload p Hm).
      cbv zeta. destruct (iframeReady p); cbn -[posts post_effects].
      * rewrite (app_nil_r (posts _)), post_effects_posts. apply app_nil_r.
      * reflexivity.
    + destruct (send_without_enqueue payload p Hm) as [o ->].
      destruct o; cbn -[posts post_effects]; rewrite app_nil_r; reflexivity.
  - rewrite app_nil_r. reflexivity.
  - rewrite app_nil_r.
    destruct (listen evt p) as [[o p'] l] eqn:Hrun. simpl.
    refine (respects_listen R Hrefl Htrans Hemit Hdeq _ _ evt p o p' l Hrun).
    + apply respects_on_green_light; auto; reflexivity.
    + apply respects_on_response; auto; reflexivity.
Qed.

(** X4. Along any run the posts are the requests that were pushed, in the
    order they were pushed, each once and each of type [PT_HANDLE_REQUEST]:
    what the log posted, followed by what is still queued, is what was
    queued at the start followed by what [sendAsync] (and [send] of
    [eth_uninstallFilter]) pushed since.  No request is lost, duplicated or
    overtaken, whatever messages arrive in between. *)
Theorem posts_follow_push_order (acts : list Action) (p : PortisProvider) :
  post_effects (snd (run acts p)) ++ posts (queue (fst (run acts p))) =
  posts (queue p ++ concat (map enqueued_by acts)).
Proof.
  revert p. induction acts as [|a acts IH]; intros p; simpl.
  - rewrite app_nil_r. reflexivity.
  - pose proof (act_conserves a p) as Ha.
    destruct (act a p) as [[o p1] l1]. simpl in Ha.
    pose proof (IH p1) as Hrest.
    destruct (run acts p1) as [p2 l2]. simpl in *.
    rewrite post_effects_app, <- app_assoc, Hrest.
    rewrite posts_app, app_assoc, Ha, <- posts_app, <- app_assoc.
    reflexivity.
Qed.

(** X5. Every entry of [requests] sits under the id of its own payload, so a
    response is matched with a request of the id it names.  A provider that
    has this keeps it through every call and every message. *)
Theorem entries_are_keyed_by_their_id (acts : list Action) (p : PortisProvider) :
  keyed_by_id p ->
  keyed_by_id (fst (run acts p)).
Proof.
  set (R := fun (p p' : PortisProvider) (_ : list Effect) =>
              keyed_by_id p -> keyed_by_id p').
  assert (forall q, R q q []) as Hrefl by (intros q H; exact H).
  assert (forall p1 p2 p3 l1 l2, R p1 p2 l1 -> R p2 p3 l2 -> R p1 p3 (l1 ++ l2))
    as Htrans by (unfold R; auto).
  assert (forall q e, is_post e = false -> R q q [e]) as Hemit
    by (intros q e _ H; exact H).
  assert (forall q, R q (drained q) (posts (queue q))) as Hdeq.
  { intros q Hq i e He. simpl in He.
    destruct (register_all_lookup _ _ _ _ He) as [Hm|[_ Hid]];
      [exact (Hq i e Hm)|exact Hid]. }
  apply (respects_run R Hrefl Htrans).
  apply respects_act; auto.
  - apply respects_enqueue; auto; intros q item H; exact H.
  - apply respects_listen; auto.
    + apply respects_on_green_light; auto; intros q H; exact H.
    + apply respects_on_response; auto; intros q v H; exact H.
  - intros q ev H. exact H.
Qed.

Lemma entries_are_keyed_by_their_id_witness :
  let acts := [CallSendAsync (request 1 "eth_accounts") (HostCb 1);
               CallSendAsync (request 2 "eth_sign") (HostCb 2);
               Deliver (from_portis PT_GREEN_LIGHT None)] in
  requests (fst (run acts fresh)) !! 2%Z =
    Some {| payload := request 2 "eth_sign"; cb := HostCb 2 |} /\
  keyed_by_id (fst (run acts fresh)).
Proof.
  split; [reflexivity|].
  apply (entries_are_keyed_by_their_id
           [CallSendAsync (request 1 "eth_accounts") (HostCb 1);
            CallSendAsync (request 2 "eth_sign") (HostCb 2);
            Deliver (from_portis PT_GREEN_LIGHT None)] fresh).
  intros i e He. unfold fresh in He. cbn [requests] in He.
  rewrite lookup_empty in He. discriminate He.
Defined.

(** X6. A request enters [requests] only together with its post: an entry
    found in [requests] after a run was there before the run, or its payload
    was posted as [PT_HANDLE_REQUEST] during the run.  So a callback that a
    response reaches belongs to a request that was sent to the iframe. *)
Theorem pending_entries_were_posted
    (acts : list Action) (p : PortisProvider) (i : Z) (e : Item) :
  requests (fst (run acts p)) !! i = Some e ->
  requests p !! i = Some e \/
  In (PostMessage PT_HANDLE_REQUEST (payload e)) (snd (run acts p)).
Proof.
  set (R := fun (p p' : PortisProvider) (l : list Effect) =>
              forall i e, requests p' !! i = Some e ->
                requests p !! i = Some e \/
                In (PostMessage PT_HANDLE_REQUEST (payload e)) l).
  assert (forall q, R q q []) as Hrefl by (intros q j x H; left; exact H).
  assert (forall p1 p2 p3 l1 l2, R p1 p2 l1 -> R p2 p3 l2 -> R p1 p3 (l1 ++ l2))
    as Htrans.
  { intros p1 p2 p3 l1 l2 H1 H2 j x H3.
    destruct (H2 j x H3) as [H|H]; [|right; apply in_or_app; right; exact H].
    destruct (H1 j x H) as [H'|H']; [left; exact H'|].
    right. apply in_or_app. left. exact H'. }
  assert (forall q x, is_post x = false -> R q q [x]) as Hemit
    by (intros q x _ j y H; left; exact H).
  assert (forall q, R q (drained q) (posts (queue q))) as Hdeq.
  { intros q j x Hx. simpl in Hx.
    destruct (register_all_lookup _ _ _ _ Hx) as [Hm|[Hin _]];
      [left; exact Hm|right].
    unfold posts. apply in_map_iff. exists x. split; [reflexivity|exact Hin]. }
  assert (forall q q', requests q' = requests q -> R q q' []) as Hsame
    by (intros q q' Hq j x H; left; rewrite <- Hq; exact H).
  revert i e. apply (respects_run R Hrefl Htrans).
  apply respects_act; auto.
  - apply respects_enqueue; auto.
  - apply respects_listen; auto.
    + apply respects_on_green_light; auto.
    + apply respects_on_response; auto.
Qed.

Lemma pending_entries_were_posted_witness :
  let item1 := {| payload := request 1 "eth_accounts"; cb := HostCb 1 |} in
  let acts := [CallSendAsync (payload item1) (cb item1);
               Deliver (from_portis PT_GREEN_LIGHT None)] in
  requests (fst (run acts fresh)) !! 1%Z = Some item1 /\
  (requests fresh !! 1%Z = Some item1 \/
   In (PostMessage PT_HANDLE_REQUEST (payload item1)) (snd (run acts fresh))).
Proof.
  split; [reflexivity|].
  apply (pending_entries_were_posted
           [CallSendAsync (request 1 "eth_accounts") (HostCb 1);
            Deliver (from_portis PT_GREEN_LIGHT None)]
           fresh 1%Z
           {| payload := request 1 "eth_accounts"; cb := HostCb 1 |}).
  reflexivity.
Defined.

(** ** Subscribers and the login notification *)

Lemma run_on_all (subs : list (string * Callback)) : forall p,
  run (map (fun s => CallOn (fst s) (snd s)) subs) p =
  (set_events (events p ++ subs) p, []).
Proof.
  induction subs as [|[name callback] subs IH]; intros p; simpl.
  - rewrite app_nil_r. destruct p; reflexivity.
  - rewrite IH. simpl. rewrite <- app_assoc. reflexivity.
Qed.

Lemma on_user_logged_in_spec evt r p :
  response (data evt) = Some r ->
  on_user_logged_in evt p =
  (Returned tt, p,
   map (fun event : string * Callback =>
          Notify (snd event) "portis" (Response.address r))
       (subscribers "login" p)).
Proof.
  intros Hr. unfold on_user_logged_in. rewrite bind_get_run, Hr.
  apply (forEach_emit
           (fun event : string * Callback =>
              Notify (snd event) "portis" (Response.address r))).
Qed.

(** X7. [on] only records the subscriber, behind the ones recorded before,
    whatever the event name.  A login message from the trusted origin then
    calls the subscribers of the name [login], and no others, in the order
    they registered, each with the provider name [portis] and the address of
    the message; the provider is left as it was. *)
Theorem login_notifies_subscribers_in_order
    (subs : list (string * Callback)) (evt : MessageEvent) (r : Response.t)
    (p : PortisProvider) :
  origin evt = portisClient p ->
  msgType (data evt) = PT_USER_LOGGED_IN ->
  response (data evt) = Some r ->
  let p1 := set_events (events p ++ subs) p in
  run (map (fun s => CallOn (fst s) (snd s)) subs) p = (p1, []) /\
  listen evt p1 =
    (Returned tt, p1,
     map (fun s => Notify (snd s) "portis" (Response.address r))
         (filter (fun s : string * Callback => fst s = "login")
                 (events p ++ subs))).
Proof.
  intros Ho Ht Hr p1. split; [apply run_on_all|].
  rewrite listen_portis by exact Ho.
  unfold switch_msgType. rewrite Ht. simpl.
  apply (on_user_logged_in_spec evt r p1 Hr).
Qed.

Lemma login_notifies_subscribers_in_order_witness :
  let subs := [("login", HostCb 1); ("purchase-initiated", HostCb 2);
               ("login", HostCb 3)] in
  let r := {| Response.id := None; Response.result := JUndefined;
              Response.address := JStr "0xabc" |} in
  let evt := from_portis PT_USER_LOGGED_IN (Some r) in
  let p1 := set_events (events fresh ++ subs) fresh in
  run (map (fun s => CallOn (fst s) (snd s)) subs) fresh = (p1, []) /\
  listen evt p1 =
    (Returned tt, p1,
     [Notify (HostCb 1) "portis" (JStr "0xabc");
      Notify (HostCb 3) "portis" (JStr "0xabc")]).
Proof.
  exact (login_notifies_subscribers_in_order
           [("login", HostCb 1); ("purchase-initiated", HostCb 2);
            ("login", HostCb 3)]
           (from_portis PT_USER_LOGGED_IN
              (Some {| Response.id := None; Response.result := JUndefined;
                       Response.address := JStr "0xabc" |}))
           {| Response.id := None; Response.result := JUndefined;
              Response.address := JStr "0xabc" |}
           fresh eq_refl eq_refl eq_refl).
Defined.

(** X8. A login message without a response: with no subscriber of [login]
    nothing is read and the listener returns; with one or more, reading the
    address raises a TypeError before any subscriber is called.  Either way
    the provider is left as it was. *)
Theorem login_without_response (evt : MessageEvent) (p : PortisProvider) :
  origin evt = portisClient p ->
  msgType (data evt) = PT_USER_LOGGED_IN ->
  response (data evt) = None ->
  listen evt p =
    (if decide (subscribers "login" p = [])
     then Returned tt else Thrown TypeError, p, []).
Proof.
  intros Ho Ht Hr. rewrite listen_portis by exact Ho.
  unfold switch_msgType. rewrite Ht. simpl.
  unfold on_user_logged_in. rewrite bind_get_run, Hr.
  fold (subscribers "login" p).
  destruct (subscribers "login" p) as [|s rest]; reflexivity.
Qed.

Lemma login_without_response_witness :
  let p := set_events [("login", HostCb 1)] fresh in
  let evt := from_portis PT_USER_LOGGED_IN None in
  response (data evt) = None /\
  listen evt p = (Thrown TypeError, p, []) /\
  listen evt fresh = (Returned tt, fresh, []).
Proof.
  split; [reflexivity|]. split.
  - exact (login_without_response (from_portis PT_USER_LOGGED_IN None)
             (set_events [("login", HostCb 1)] fresh) eq_refl eq_refl eq_refl).
  - reflexivity.
Defined.

(** X9. A message of a type the listener has no case for is ignored, also
    when it comes from the trusted origin: nothing changes, nothing is
    called, nothing raises.  [PT_HANDLE_REQUEST], the type the provider posts
    itself, is such a type when it comes back. *)
Theorem unknown_message_type_is_ignored (evt : MessageEvent) (p : PortisProvider) :
  ~ In (msgType (data evt)) handled_types ->
  listen evt p = (Returned tt, p, []).
Proof.
  intros Hnot. unfold listen. rewrite bind_get_run.
  destruct (String.eqb (origin evt) (portisClient p)); [|reflexivity].
  unfold switch_msgType.
  repeat match goal with
  | |- context [String.eqb (msgType (data evt)) ?t] =>
      destruct (String.eqb_spec (msgType (data evt)) t) as [Heq|_];
      [exfalso; apply Hnot; rewrite Heq; unfold handled_types; simpl; tauto|]
  end.
  reflexivity.
Qed.

Lemma unknown_message_type_is_ignored_witness :
  let p := pushed {| payload := request 1 "eth_accounts"; cb := HostCb 1 |} fresh in
  let evt := from_portis PT_HANDLE_REQUEST (Some (answer 1 JNull)) in
  ~ In (msgType (data evt)) handled_types /\
  listen evt p = (Returned tt, p, []).
Proof.
  assert (~ In PT_HANDLE_REQUEST handled_types) as Hnot.
  { unfold handled_types. simpl. intros H.
    repeat (destruct H as [H|H]; [discriminate H|]). exact H. }
  split; [exact Hnot|].
  exact (unknown_message_type_is_ignored
           (from_portis PT_HANDLE_REQUEST (Some (answer 1 JNull)))
           (pushed {| payload := request 1 "eth_accounts"; cb := HostCb 1 |} fresh)
           Hnot).
Defined.

(** ** Requests and their answers *)

Lemma sendAsync_ready payload cb p :
  iframeReady p = true ->
  queue p = [] ->
  sendAsync payload cb p =
  (Returned tt,
   set_requests (<[Payload.id payload := {| payload := payload; cb := cb |}]>
                   (requests p)) p,
   [PostMessage PT_HANDLE_REQUEST payload]).
Proof.
  intros Hr Hq. unfold sendAsync. rewrite enqueue_spec, Hr. simpl.
  unfold drained, pushed. simpl. rewrite Hq. simpl.
  destruct p; simpl in *; subst; reflexivity.
Qed.

(** X10. A request handed to [sendAsync] on a ready provider with an empty
    queue is posted at once, and the response that names its id calls its
    callback, once, with no error and that response.  (The listener may
    still raise afterwards, when the method is an account query and the
    result cannot be indexed.) *)
Theorem request_response_round_trip
    (q : Payload.t) (callback : Callback) (evt : MessageEvent)
    (r : Response.t) (p : PortisProvider) :
  iframeReady p = true ->
  queue p = [] ->
  origin evt = portisClient p ->
  msgType (data evt) = PT_RESPONSE ->
  response (data evt) = Some r ->
  Response.id r = Some (Payload.id q) ->
  exists o p',
    (sendAsync q callback ;; listen evt) p =
    (o, p', [PostMessage PT_HANDLE_REQUEST q; Invoke callback None (Some r)]).
Proof.
  intros Hr Hq Ho Ht Hresp Hid. unfold bind.
  rewrite (sendAsync_ready q callback p Hr Hq).
  set (item := {| payload := q; cb := callback |}).
  set (p1 := set_requests (<[Payload.id q := item]> (requests p)) p).
  assert (requests p1 !! Payload.id q = Some item) as He
    by apply lookup_insert_eq.
  rewrite (listen_portis evt p1) by exact Ho.
  unfold switch_msgType. rewrite Ht. simpl.
  rewrite (on_response_known evt r _ item p1 Hresp Hid He).
  destruct (session_after (Payload.method (payload item)) r p1) as [p2|].
  - exists (Returned tt), (drained p2). subst p1. simpl. rewrite Hq. reflexivity.
  - exists (Thrown TypeError), p1. reflexivity.
Qed.

Lemma request_response_round_trip_witness :
  let p := set_iframeReady true fresh in
  let r := answer 5 (JStr "0xsigned") in
  let evt := from_portis PT_RESPONSE (Some r) in
  (iframeReady p = true /\ queue p = []) /\
  exists o p',
    (sendAsync (request 5 "eth_sign") (HostCb 5) ;; listen evt) p =
    (o, p',
     [PostMessage PT_HANDLE_REQUEST (request 5 "eth_sign");
      Invoke (HostCb 5) None (Some r)]).
Proof.
  split; [split; reflexivity|].
  exact (request_response_round_trip
           (request 5 "eth_sign") (HostCb 5)
           (from_portis PT_RESPONSE (Some (answer 5 (JStr "0xsigned"))))
           (answer 5 (JStr "0xsigned")) (set_iframeReady true fresh)
           eq_refl eq_refl eq_refl eq_refl eq_refl eq_refl).
Defined.

Lemma session_after_other method r p :
  is_account_query method = false ->
  String.eqb method "net_version" = false ->
  session_after method r p = Some p.
Proof. intros Ha Hn. unfold session_after. rewrite Ha, Hn. reflexivity. Qed.

(** X11. [showPortis] and [setDefaultEmail] send requests of the provider's
    own: the id is the one [randomId] gave, the version is 2.0, the method is
    [SHOW_PORTIS] with no parameter, respectively [SET_DEFAULT_EMAIL] with the
    address as its one parameter.  On a ready provider with an empty queue
    the request is posted at once; the response that names the id calls the
    callback given to [showPortis], and for [setDefaultEmail] only the
    provider's own [_ => _].  The listener returns whatever the result is. *)
Theorem generic_payloads_round_trip
    (randomId : Z) (callback : Callback) (email : string)
    (evt : MessageEvent) (r : Response.t) (p : PortisProvider) :
  iframeReady p = true ->
  queue p = [] ->
  origin evt = portisClient p ->
  msgType (data evt) = PT_RESPONSE ->
  response (data evt) = Some r ->
  Response.id r = Some randomId ->
  (exists p',
     (showPortis randomId callback ;; listen evt) p =
     (Returned tt, p',
      [PostMessage PT_HANDLE_REQUEST
         {| Payload.id := randomId; Payload.jsonrpc := "2.0";
            Payload.method := "SHOW_PORTIS"; Payload.params := [] |};
       Invoke callback None (Some r)])) /\
  (exists p',
     (setDefaultEmail randomId email ;; listen evt) p =
     (Returned tt, p',
      [PostMessage PT_HANDLE_REQUEST
         {| Payload.id := randomId; Payload.jsonrpc := "2.0";
            Payload.method := "SET_DEFAULT_EMAIL";
            Payload.params := [JStr email] |};
       Invoke IdentityCb None (Some r)])).
Proof.
  intros Hr Hq Ho Ht Hresp Hid.
  assert (forall q c,
            is_account_query (Payload.method q) = false ->
            String.eqb (Payload.method q) "net_version" = false ->
            Payload.id q = randomId ->
            exists p',
              (enqueue q c ;; listen evt) p =
              (Returned tt, p',
               [PostMessage PT_HANDLE_REQUEST q; Invoke c None (Some r)]))
    as Hgen.
  { intros q c Ha Hn Hq'. unfold bind.
    change (enqueue q c p) with (sendAsync q c p).
    rewrite (sendAsync_ready q c p Hr Hq).
    set (item := {| payload := q; cb := c |}).
    set (p1 := set_requests (<[Payload.id q := item]> (requests p)) p).
    assert (requests p1 !! randomId = Some item) as He
      by (rewrite <- Hq'; apply lookup_insert_eq).
    rewrite (listen_portis evt p1) by exact Ho.
    unfold switch_msgType. rewrite Ht. simpl.
    rewrite (on_response_known evt r _ item p1 Hresp Hid He).
    rewrite (session_after_other (Payload.method (payload item)) r p1 Ha Hn).
    exists (drained p1). subst p1. simpl. rewrite Hq. reflexivity. }
  split.
  - apply (Hgen {| Payload.id := randomId; Payload.jsonrpc := "2.0";
                   Payload.method := "SHOW_PORTIS"; Payload.params := [] |}
                callback); reflexivity.
  - apply (Hgen {| Payload.id := randomId; Payload.jsonrpc := "2.0";
                   Payload.method := "SET_DEFAULT_EMAIL";
                   Payload.params := [JStr email] |}
                IdentityCb); reflexivity.
Qed.

Lemma generic_payloads_round_trip_witness :
  let p := set_iframeReady true fresh in
  let r := answer 77 JUndefined in
  let evt := from_portis PT_RESPONSE (Some r) in
  (iframeReady p = true /\ queue p = []) /\
  exists p',
    (showPortis 77 (HostCb 4) ;; listen evt) p =
    (Returned tt, p',
     [PostMessage PT_HANDLE_REQUEST
        {| Payload.id := 77; Payload.jsonrpc := "2.0";
           Payload.method := "SHOW_PORTIS"; Payload.params := [] |};
      Invoke (HostCb 4) None (Some r)]).
Proof.
  split; [split; reflexivity|].
  exact (proj1 (generic_payloads_round_trip
                  77 (HostCb 4) "satoshi@portis.io"
                  (from_portis PT_RESPONSE (Some (answer 77 JUndefined)))
                  (answer 77 JUndefined) (set_iframeReady true fresh)
                  eq_refl eq_refl eq_refl eq_refl eq_refl eq_refl)).
Defined.

(** X12. The calls of the host page never call a callback while they run:
    what [sendAsync], [send] and [on] do to the world is posts of queued
    requests and nothing else.  Callbacks are called from the message
    listener alone. *)
Theorem calls_only_post (a : Action) (p : PortisProvider) :
  (forall evt, a <> Deliver evt) ->
  exists q, snd (act a p) = posts q.
Proof.
  intros Hcall.
  destruct a as [payload cb|payload|eventName callback|evt]; cbn [act].
  - unfold sendAsync. rewrite enqueue_spec. cbv zeta.
    destruct (iframeReady p); [eexists; reflexivity|exists []; reflexivity].
  - unfold bind, ret.
    destruct (String.eqb (Payload.method payload) "eth_uninstallFilter") eqn:Hm.
    + apply String.eqb_eq in Hm. rewrite (send_uninstallFilter payload p Hm).
      cbv zeta. destruct (iframeReady p); cbn -[posts].
      * rewrite app_nil_r. eexists. reflexivity.
      * exists []. reflexivity.
    + destruct (send_without_enqueue payload p Hm) as [o ->].
      exists []. destruct o; reflexivity.
  - exists []. reflexivity.
  - exfalso. exact (Hcall evt eq_refl).
Qed.

Lemma calls_only_post_witness :
  let p := set_iframeReady true fresh in
  let a := CallSend (request 3 "eth_uninstallFilter") in
  (forall evt, a <> Deliver evt) /\
  snd (act a p) = [PostMessage PT_HANDLE_REQUEST (request 3 "eth_uninstallFilter")] /\
  exists q, snd (act a p) = posts q.
Proof.
  split; [intros evt; discriminate|]. split; [reflexivity|].
  apply calls_only_post. intros evt. discriminate.
Defined.

(** X13. A response to a pending request that is neither an account query
    nor [net_version] never raises, whatever its result, an absent one
    included: the callback gets the response, the session fields stay, and
    the queue is drained. *)
Theorem response_to_other_method
    (evt : MessageEvent) (p : PortisProvider) (r : Response.t) (i : Z) (e : Item) :
  origin evt = portisClient p ->
  msgType (data evt) = PT_RESPONSE ->
  response (data evt) = Some r ->
  Response.id r = Some i ->
  requests p !! i = Some e ->
  Payload.method (payload e) <> "eth_accounts" ->
  Payload.method (payload e) <> "eth_coinbase" ->
  Payload.method (payload e) <> "net_version" ->
  listen evt p =
    (Returned tt, drained p, Invoke (cb e) None (Some r) :: posts (queue p)).
Proof.
  intros Ho Ht Hr Hid He Ha Hc Hn. rewrite listen_portis by exact Ho.
  unfold switch_msgType. rewrite Ht. simpl.
  rewrite (on_response_known evt r i e p Hr Hid He).
  rewrite session_after_other; [reflexivity| |].
  - unfold is_account_query. apply orb_false_iff.
    split; apply String.eqb_neq; assumption.
  - apply String.eqb_neq. exact Hn.
Qed.

Lemma response_to_other_method_witness :
  let item1 := {| payload := request 1 "eth_sendTransaction"; cb := HostCb 1 |} in
  let p := set_requests {[ 1%Z := item1 ]} fresh in
  let r := answer 1 JUndefined in
  let evt := from_portis PT_RESPONSE (Some r) in
  requests p !! 1%Z = Some item1 /\
  listen evt p = (Returned tt, drained p, [Invoke (HostCb 1) None (Some r)]).
Proof.
  split; [reflexivity|].
  apply (response_to_other_method
           (from_portis PT_RESPONSE (Some (answer 1 JUndefined)))
           (set_requests
              {[ 1%Z := {| payload := request 1 "eth_sendTransaction";
                           cb := HostCb 1 |} ]} fresh)
           (answer 1 JUndefined) 1%Z
           {| payload := request 1 "eth_sendTransaction"; cb := HostCb 1 |});
    first [reflexivity | discriminate].
Defined.

(** X14. A response to a pending account query whose result is [undefined]
    or [null] raises a TypeError at [result[0]], after the callback was
    called with the response: the account is not touched and the drain is
    not reached, so what is queued stays queued and nothing is posted. *)
Theorem account_response_without_result_throws
    (evt : MessageEvent) (p : PortisProvider) (r : Response.t) (i : Z) (e : Item) :
  origin evt = portisClient p ->
  msgType (data evt) = PT_RESPONSE ->
  response (data evt) = Some r ->
  Response.id r = Some i ->
  requests p !! i = Some e ->
  is_account_query (Payload.method (payload e)) = true ->
  Response.result r = JUndefined \/ Response.result r = JNull ->
  listen evt p = (Thrown TypeError, p, [Invoke (cb e) None (Some r)]).
Proof.
  intros Ho Ht Hr Hid He Ha Hres. rewrite listen_portis by exact Ho.
  unfold switch_msgType. rewrite Ht. simpl.
  rewrite (on_response_known evt r i e p Hr Hid He).
  unfold session_after. rewrite Ha.
  destruct Hres as [-> | ->]; reflexivity.
Qed.

Lemma account_response_without_result_throws_witness :
  let item1 := {| payload := request 1 "eth_coinbase"; cb := HostCb 1 |} in
  let item2 := {| payload := request 2 "eth_sign"; cb := HostCb 2 |} in
  let p := pushed item2 (set_requests {[ 1%Z := item1 ]} fresh) in
  let r := answer 1 JNull in
  let evt := from_portis PT_RESPONSE (Some r) in
  (requests p !! 1%Z = Some item1 /\ queue p = [item2]) /\
  listen evt p = (Thrown TypeError, p, [Invoke (HostCb 1) None (Some r)]).
Proof.
  split; [split; reflexivity|].
  apply (account_response_without_result_throws
           (from_portis PT_RESPONSE (Some (answer 1 JNull)))
           (pushed {| payload := request 2 "eth_sign"; cb := HostCb 2 |}
              (set_requests
                 {[ 1%Z := {| payload := request 1 "eth_coinbase";
                              cb := HostCb 1 |} ]} fresh))
           (answer 1 JNull) 1%Z
           {| payload := request 1 "eth_coinbase"; cb := HostCb 1 |});
    first [reflexivity | right; reflexivity].
Defined.

(** ** Denials *)

Lemma listen_denied evt p :
  origin evt = portisClient p ->
  msgType (data evt) = PT_USER_DENIED ->
  listen evt p = on_user_denied evt p.
Proof.
  intros Ho Ht. rewrite listen_portis by exact Ho.
  unfold switch_msgType. rewrite Ht. reflexivity.
Qed.

(** X15. A denial that names a non-zero id which is not a key of [requests]
    raises a TypeError at the unguarded lookup: nothing is called, the
    provider is left as it was, and the drain is not reached. *)
Theorem denial_for_unknown_id_throws
    (evt : MessageEvent) (p : PortisProvider) (i : Z) :
  origin evt = portisClient p ->
  msgType (data evt) = PT_USER_DENIED ->
  denied_id evt = Some i ->
  i <> 0%Z ->
  requests p !! i = None ->
  listen evt p = (Thrown TypeError, p, []).
Proof.
  intros Ho Ht Hid Hnz Hnone. rewrite (listen_denied evt p Ho Ht).
  apply on_user_denied_unknown.
  - rewrite Hid. simpl. destruct (Z.eqb_spec i 0); [contradiction|reflexivity].
  - intros j Hj. congruence.
Qed.

Lemma denial_for_unknown_id_throws_witness :
  let item2 := {| payload := request 2 "eth_sign"; cb := HostCb 2 |} in
  let p := pushed item2 fresh in
  let evt := from_portis PT_USER_DENIED (Some (denied (Some 9%Z))) in
  requests p !! 9%Z = None /\
  listen evt p = (Thrown TypeError, p, []).
Proof.
  split; [reflexivity|].
  apply (denial_for_unknown_id_throws
           (from_portis PT_USER_DENIED (Some (denied (Some 9%Z))))
           (pushed {| payload := request 2 "eth_sign"; cb := HostCb 2 |} fresh)
           9%Z); first [reflexivity | discriminate].
Defined.

(** X16. The test [if (id)] takes the number 0 for no id: a denial that
    names the id 0 is handled as a denial without id is, and the entry
    pending under 0 is not looked up.  So when no queued callback raises,
    the callbacks of the queued items get the denial and the queue is
    drained; and at the first queued callback that raises the listener ends
    with its exception, with the provider left as it was. *)
Theorem denial_naming_zero_is_a_broadcast (evt : MessageEvent) (p : PortisProvider) :
  origin evt = portisClient p ->
  msgType (data evt) = PT_USER_DENIED ->
  denied_id evt = Some 0%Z ->
  (forall evt',
     origin evt' = portisClient p ->
     msgType (data evt') = PT_USER_DENIED ->
     denied_id evt' = None ->
     listen evt p = listen evt' p) /\
  (all_return (queue p) ->
   listen evt p =
     (Returned tt, drained p, denials (queue p) ++ posts (queue p))) /\
  (forall before item after,
     queue p = before ++ item :: after ->
     all_return before ->
     throws_on_error (cb item) = true ->
     listen evt p =
       (Thrown (raised_by denial_message), p, denials (before ++ [item]))).
Proof.
  intros Ho Ht Hid. rewrite (listen_denied evt p Ho Ht).
  assert (id_truthy (denied_id evt) = false) as Hfalsy
    by (rewrite Hid; reflexivity).
  split; [|split].
  - intros evt' Ho' Ht' Hid'. rewrite (listen_denied evt' p Ho' Ht').
    rewrite (on_user_denied_broadcast evt p Hfalsy).
    rewrite (on_user_denied_broadcast evt' p); [reflexivity|].
    rewrite Hid'. reflexivity.
  - intros Hall. apply on_user_denied_broadcast_all; assumption.
  - intros before item after Hq Hb Hitem.
    rewrite (on_user_denied_broadcast evt p Hfalsy), Hq.
    rewrite (denied_until_throw_stop before item after Hb Hitem).
    reflexivity.
Qed.

Lemma denial_naming_zero_is_a_broadcast_witness :
  let item0 := {| payload := request 0 "eth_sign"; cb := HostCb 0 |} in
  let item1 := {| payload := request 1 "eth_sign"; cb := HostCb 1 |} in
  let p := pushed item1 (set_requests {[ 0%Z := item0 ]} fresh) in
  let evt := from_portis PT_USER_DENIED (Some (denied (Some 0%Z))) in
  (requests p !! 0%Z = Some item0 /\ all_return (queue p)) /\
  listen evt p =
    (Returned tt, drained p,
     [Invoke (HostCb 1) (Some denial) None;
      PostMessage PT_HANDLE_REQUEST (payload item1)]).
Proof.
  assert (all_return
            (queue (pushed {| payload := request 1 "eth_sign"; cb := HostCb 1 |}
                      (set_requests
                         {[ 0%Z := {| payload := request 0 "eth_sign";
                                      cb := HostCb 0 |} ]} fresh)))) as Hall
    by (repeat constructor).
  split; [split; [reflexivity|exact Hall]|].
  exact (proj1 (proj2 (denial_naming_zero_is_a_broadcast
           (from_portis PT_USER_DENIED (Some (denied (Some 0%Z))))
           (pushed {| payload := request 1 "eth_sign"; cb := HostCb 1 |}
              (set_requests
                 {[ 0%Z := {| payload := request 0 "eth_sign";
                              cb := HostCb 0 |} ]} fresh))
           eq_refl eq_refl eq_refl)) Hall).
Defined.

(** X17. A denial without id reaches the queue only.  With nothing queued it
    does nothing at all, however many requests are pending: their callbacks
    are not called and they stay in [requests]. *)
Theorem broadcast_denial_spares_pending_requests
    (evt : MessageEvent) (p : PortisProvider) :
  origin evt = portisClient p ->
  msgType (data evt) = PT_USER_DENIED ->
  id_truthy (denied_id evt) = false ->
  queue p = [] ->
  listen evt p = (Returned tt, p, []).
Proof.
  intros Ho Ht Hid Hq. rewrite (listen_denied evt p Ho Ht).
  rewrite (on_user_denied_broadcast evt p Hid), Hq.
  rewrite (drained_empty p Hq). reflexivity.
Qed.

Lemma broadcast_denial_spares_pending_requests_witness :
  let item1 := {| payload := request 1 "eth_sendTransaction"; cb := HostCb 1 |} in
  let p := fst (run [CallSendAsync (payload item1) (cb item1);
                     Deliver (from_portis PT_GREEN_LIGHT None)] fresh) in
  let evt := from_portis PT_USER_DENIED None in
  (requests p !! 1%Z = Some item1 /\ queue p = []) /\
  listen evt p = (Returned tt, p, []).
Proof.
  split; [split; reflexivity|].
  apply (broadcast_denial_spares_pending_requests
           (from_portis PT_USER_DENIED None)
           (fst (run [CallSendAsync (request 1 "eth_sendTransaction") (HostCb 1);
                      Deliver (from_portis PT_GREEN_LIGHT None)] fresh)));
    reflexivity.
Defined.

(** ** Ids used twice, and draining twice *)

Lemma register_all_other q : forall (m : gmap Z Item) i,
  Forall (fun x => Payload.id (payload x) <> i) q ->
  register_all q m !! i = m !! i.
Proof.
  induction q as [|item q IH]; intros m i Hq; simpl; [reflexivity|].
  inversion Hq as [|? ? Hne Hrest]; subst.
  rewrite IH by exact Hrest. apply lookup_insert_ne. exact Hne.
Qed.

(** X18. When two queued requests carry the same id, the drain posts both
    but the later one takes the place of the earlier in [requests]: after
    the green light the id leads to the last queued request that carries it,
    so a response with that id can only reach the later callback. *)
Theorem last_request_of_an_id_wins
    (evt : MessageEvent) (p : PortisProvider)
    (before after : list Item) (item : Item) :
  origin evt = portisClient p ->
  msgType (data evt) = PT_GREEN_LIGHT ->
  queue p = before ++ item :: after ->
  Forall (fun x => Payload.id (payload x) <> Payload.id (payload item)) after ->
  exists p',
    listen evt p = (Returned tt, p', posts (before ++ item :: after)) /\
    requests p' !! Payload.id (payload item) = Some item.
Proof.
  intros Ho Ht Hq Hafter. exists (drained (set_iframeReady true p)).
  rewrite listen_portis by exact Ho.
  unfold switch_msgType. rewrite Ht. simpl.
  rewrite on_green_light_spec, Hq. split; [reflexivity|].
  simpl. rewrite register_all_app. simpl.
  rewrite register_all_other by exact Hafter.
  apply lookup_insert_eq.
Qed.

Lemma last_request_of_an_id_wins_witness :
  let first := {| payload := request 1 "eth_accounts"; cb := HostCb 1 |} in
  let second := {| payload := request 1 "eth_sign"; cb := HostCb 2 |} in
  let p := fst (run [CallSendAsync (payload first) (cb first);
                     CallSendAsync (payload second) (cb second)] fresh) in
  let evt := from_portis PT_GREEN_LIGHT None in
  queue p = [first; second] /\
  exists p',
    listen evt p = (Returned tt, p', posts [first; second]) /\
    requests p' !! 1%Z = Some second.
Proof.
  split; [reflexivity|].
  apply (last_request_of_an_id_wins
           (from_portis PT_GREEN_LIGHT None)
           (fst (run [CallSendAsync (request 1 "eth_accounts") (HostCb 1);
                      CallSendAsync (request 1 "eth_sign") (HostCb 2)] fresh))
           [ {| payload := request 1 "eth_accounts"; cb := HostCb 1 |} ]
           []
           {| payload := request 1 "eth_sign"; cb := HostCb 2 |});
    first [reflexivity | constructor].
Defined.

(** X19. Draining twice is draining once: the second [dequeue] finds the
    queue empty, posts nothing and registers nothing. *)
Theorem dequeue_is_idempotent (p : PortisProvider) :
  (dequeue ;; dequeue) p = dequeue p.
Proof.
  unfold bind. rewrite (dequeue_spec p), (dequeue_spec (drained p)).
  simpl. rewrite app_nil_r. reflexivity.
Qed.

(** ** The page *)

Section PageProperties.

Variable css : string.
Variable btoa_json : option AppOptions -> string.

Lemma foldl_react_invariant (I : Page -> Prop) :
  (forall pg e, I pg -> I (react e pg)) ->
  forall l pg, I pg -> I (foldl (fun pg e => react e pg) pg l).
Proof.
  intros Hreact l. induction l as [|e l IH]; intros pg Hpg; simpl.
  - exact Hpg.
  - apply IH. apply Hreact. exact Hpg.
Qed.

(** What holds of the page and is kept by each step of the provider's page
    code is kept by [onload], by the load event and by any log. *)
Lemma page_invariant (I : Page -> Prop) :
  (forall pg e, I pg -> I (react e pg)) ->
  (forall pg l, I pg -> I (set_reactions l pg)) ->
  (forall pg b, I pg -> I (set_load_listener b pg)) ->
  (forall pg s, I pg -> I (set_readyState s pg)) ->
  (forall pg els l, I pg -> I (set_elements (Some els) (set_head_styles l pg))) ->
  forall p,
    (forall pg, I pg -> I (onload css btoa_json p pg)) /\
    (forall pg, I pg -> I (fire_load css btoa_json p pg)) /\
    (forall l pg, I pg -> I (perform css btoa_json p l pg)).
Proof.
  intros Hreact Hrs Hll Hst Hel p.
  assert (forall pg, I pg -> I (onload css btoa_json p pg)) as Honload.
  { intros pg Hpg. unfold onload.
    apply foldl_react_invariant; [exact Hreact|].
    apply Hrs. apply Hel. exact Hpg. }
  split; [exact Honload|]. split.
  - intros pg Hpg. unfold fire_load.
    destruct (load_listener pg); [apply Honload|]; apply Hll, Hst; exact Hpg.
  - intros l. induction l as [|e l IH]; intros pg Hpg; simpl; [exact Hpg|].
    apply IH. destruct e; simpl; try exact Hpg.
    + unfold thenElements. destruct (elements pg);
        [apply Hreact|apply Hrs]; exact Hpg.
    + unfold thenElements. destruct (elements pg);
        [apply Hreact|apply Hrs]; exact Hpg.
    + unfold thenElements. destruct (elements pg);
        [apply Hreact|apply Hrs]; exact Hpg.
    + unfold createIframe.
      destruct (bool_decide (readyState pg ∈ loaded_states));
        [apply Honload|apply Hll]; exact Hpg.
Qed.

(** X20. On a page that is not a mobile one the provider never touches the
    scrolling of the page: whatever it does before the load event, at the
    load event and after it, [document.body.style.overflow] is what the page
    had. *)
Theorem desktop_overflow_is_never_touched
    (p : PortisProvider) (l1 l2 : list Effect) (pg : Page) :
  mobile pg = false ->
  body_overflow
    (perform css btoa_json p l2
       (fire_load css btoa_json p (perform css btoa_json p l1 pg))) =
  body_overflow pg.
Proof.
  intros Hm.
  set (I := fun pg' : Page =>
              mobile pg' = false /\ body_overflow pg' = body_overflow pg).
  assert (I pg) as Hpg by (split; [exact Hm|reflexivity]).
  destruct (page_invariant I) with (p := p) as (_ & Hload & Hperform).
  - intros pg' e [Hm' Ho]. unfold react.
    destruct (elements pg'); [|split; assumption].
    destruct e; rewrite ?Hm'; try (split; assumption).
    destruct (iframe_has_window pg'); split; assumption.
  - intros pg' l H. exact H.
  - intros pg' b H. exact H.
  - intros pg' s H. exact H.
  - intros pg' els l H. exact H.
  - exact (proj2 (Hperform l2 _ (Hload _ (Hperform l1 pg Hpg)))).
Qed.

(** X21. While the iframe has no window, a post is dropped in silence: the
    iframe receives no message, whether the post was asked for before the
    load event or after it. *)
Theorem posts_without_window_are_dropped
    (p : PortisProvider) (l1 l2 : list Effect) (pg : Page) :
  iframe_has_window pg = false ->
  outbox
    (perform css btoa_json p l2
       (fire_load css btoa_json p (perform css btoa_json p l1 pg))) =
  outbox pg.
Proof.
  intros Hw.
  set (I := fun pg' : Page =>
              iframe_has_window pg' = false /\ outbox pg' = outbox pg).
  assert (I pg) as Hpg by (split; [exact Hw|reflexivity]).
  destruct (page_invariant I) with (p := p) as (_ & Hload & Hperform).
  - intros pg' e [Hw' Ho]. unfold react.
    destruct (elements pg'); [|split; assumption].
    destruct e; rewrite ?Hw'; try (split; assumption);
      destruct (mobile pg'); split; assumption.
  - intros pg' l H. exact H.
  - intros pg' b H. exact H.
  - intros pg' s H. exact H.
  - intros pg' els l H. exact H.
  - exact (proj2 (Hperform l2 _ (Hload _ (Hperform l1 pg Hpg)))).
Qed.

Lemma perform_snoc p l e pg :
  perform css btoa_json p (l ++ [e]) pg =
  perform_effect css btoa_json p (perform css btoa_json p l pg) e.
Proof. unfold perform. rewrite foldl_app. reflexivity. Qed.

(** X22. On a mobile page, once the iframe exists, hiding it sets the
    scrolling of the page to [inherit] and showing it to [hidden], whatever
    was done before: the wrapper is displayed as [none], respectively
    [block].  The value the page had before the first show is not kept. *)
Theorem mobile_show_and_hide
    (p : PortisProvider) (l : list Effect) (pg : Page) :
  mobile pg = true ->
  is_Some (elements pg) ->
  (exists els,
     elements (perform css btoa_json p (l ++ [HideIframe]) pg) = Some els /\
     wrapper_display els = "none" /\
     body_overflow (perform css btoa_json p (l ++ [HideIframe]) pg) = "inherit") /\
  (exists els,
     elements (perform css btoa_json p (l ++ [ShowIframe]) pg) = Some els /\
     wrapper_display els = "block" /\
     body_overflow (perform css btoa_json p (l ++ [ShowIframe]) pg) = "hidden").
Proof.
  intros Hm Hel.
  set (I := fun pg' : Page => mobile pg' = true /\ is_Some (elements pg')).
  assert (I (perform css btoa_json p l pg)) as [Hm' [els Hels]].
  { destruct (page_invariant I) with (p := p) as (_ & _ & Hperform).
    - intros pg' e [Hm' [els Hels]]. unfold react. rewrite Hels.
      destruct e; rewrite ?Hm'; try (split; [assumption|eauto]);
        try (split; [reflexivity|simpl; eauto]).
      destruct (iframe_has_window pg'); split; simpl; eauto.
    - intros pg' x H. exact H.
    - intros pg' b H. exact H.
    - intros pg' s H. exact H.
    - intros pg' els x [H _]. split; [exact H|simpl; eauto].
    - apply Hperform. split; assumption. }
  rewrite !perform_snoc. simpl. unfold thenElements, react.
  rewrite Hels, Hm'. simpl. split; eexists; repeat split.
Qed.

Lemma react_other e pg : is_page_effect e = false -> react e pg = pg.
Proof.
  intros He. unfold react. destruct (elements pg); [|reflexivity].
  destruct e; try discriminate He; reflexivity.
Qed.

Lemma foldl_react_filter l : forall pg,
  foldl (fun pg e => react e pg) pg (List.filter is_page_effect l) =
  foldl (fun pg e => react e pg) pg l.
Proof.
  induction l as [|e l IH]; intros pg; simpl; [reflexivity|].
  destruct (is_page_effect e) eqn:He; simpl.
  - apply IH.
  - rewrite (react_other e pg He). apply IH.
Qed.

Lemma react_keeps_resolved e pg :
  is_Some (elements pg) -> is_Some (elements (react e pg)).
Proof.
  intros [els Hels]. unfold react. rewrite Hels.
  destruct e, (mobile pg), (iframe_has_window pg); simpl; eauto.
Qed.

Lemma perform_pending p l : forall pg,
  elements pg = None ->
  ~ In CreateIframe l ->
  perform css btoa_json p l pg =
  set_reactions (reactions pg ++ List.filter is_page_effect l) pg.
Proof.
  induction l as [|e l IH]; intros pg Hel Hno.
  - simpl. rewrite app_nil_r. destruct pg; reflexivity.
  - assert (~ In CreateIframe l) as Hno' by (intros H; apply Hno; right; exact H).
    change (perform css btoa_json p (e :: l) pg)
      with (perform css btoa_json p l (perform_effect css btoa_json p pg e)).
    destruct e; simpl;
      try (rewrite IH by assumption; reflexivity);
      try (unfold thenElements; rewrite Hel;
           rewrite IH by assumption; simpl;
           rewrite <- app_assoc; reflexivity).
    exfalso. apply Hno. left. reflexivity.
Qed.

Lemma perform_resolved p l : forall pg,
  is_Some (elements pg) ->
  ~ In CreateIframe l ->
  perform css btoa_json p l pg = foldl (fun pg e => react e pg) pg l.
Proof.
  induction l as [|e l IH]; intros pg Hel Hno; [reflexivity|].
  assert (~ In CreateIframe l) as Hno' by (intros H; apply Hno; right; exact H).
  change (perform css btoa_json p (e :: l) pg)
    with (perform css btoa_json p l (perform_effect css btoa_json p pg e)).
  simpl.
  assert (perform_effect css btoa_json p pg e = react e pg) as ->.
  { destruct Hel as [els Hels].
    destruct e; simpl; unfold thenElements, react; rewrite Hels;
      try reflexivity.
    exfalso. apply Hno. left. reflexivity. }
  apply IH; [apply react_keeps_resolved; exact Hel|exact Hno'].
Qed.

(** X23. Building the iframe late changes nothing.  When the document is
    still loading at construction, [createIframe] waits for the load event
    and what is posted, shown or hidden meanwhile waits with it; at the load
    event all of it runs in the order it was asked for, and the page is then
    exactly the page of a provider constructed on a complete document. *)
Theorem late_iframe_catches_up
    (p : PortisProvider) (l : list Effect) (pg : Page) :
  untouched pg ->
  readyState pg ∉ loaded_states ->
  ~ In CreateIframe l ->
  fire_load css btoa_json p (perform css btoa_json p (CreateIframe :: l) pg) =
  perform css btoa_json p (CreateIframe :: l) (set_readyState "complete" pg).
Proof.
  intros (Hel & Hre & Hll) Hstate Hno.
  change (perform css btoa_json p (CreateIframe :: l) pg)
    with (perform css btoa_json p l (createIframe css btoa_json p pg)).
  change (perform css btoa_json p (CreateIframe :: l) (set_readyState "complete" pg))
    with (perform css btoa_json p l
            (createIframe css btoa_json p (set_readyState "complete" pg))).
  unfold createIframe at 1.
  rewrite (bool_decide_eq_false_2 _ Hstate).
  rewrite perform_pending by assumption.
  unfold createIframe.
  rewrite bool_decide_eq_true_2
    by (unfold loaded_states; simpl; set_solver).
  rewrite perform_resolved; [|unfold onload; simpl; rewrite Hre; simpl; eauto|exact Hno].
  unfold fire_load, onload. simpl. rewrite Hre. simpl.
  rewrite foldl_react_filter.
  destruct pg; simpl in *; subst. reflexivity.
Qed.

Lemma perform_effect_resolved p e pg :
  is_Some (elements pg) ->
  reactions pg = [] ->
  is_Some (elements (perform_effect css btoa_json p pg e)) /\
  reactions (perform_effect css btoa_json p pg e) = [] /\
  iframe_has_window (perform_effect css btoa_json p pg e) = iframe_has_window pg /\
  outbox (perform_effect css btoa_json p pg e) =
    outbox pg ++ (if iframe_has_window pg then messages [e] else []).
Proof.
  intros [els Hels] Hre.
  destruct e; simpl; unfold thenElements, react, createIframe, onload;
    rewrite ?Hels, ?Hre;
    repeat match goal with
    | |- context [if ?b then _ else _] => destruct b eqn:?
    end;
    simpl; rewrite ?app_nil_r; repeat split; eauto.
Qed.

Lemma perform_outbox p l : forall pg,
  is_Some (elements pg) ->
  reactions pg = [] ->
  outbox (perform css btoa_json p l pg) =
  outbox pg ++ (if iframe_has_window pg then messages l else []).
Proof.
  induction l as [|e l IH]; intros pg Hel Hre.
  - simpl. destruct (iframe_has_window pg); rewrite app_nil_r; reflexivity.
  - change (perform css btoa_json p (e :: l) pg)
      with (perform css btoa_json p l (perform_effect css btoa_json p pg e)).
    destruct (perform_effect_resolved p e pg Hel Hre) as (Hel' & Hre' & Hw & Ho).
    rewrite IH by assumption. rewrite Hw, Ho.
    destruct (iframe_has_window pg); rewrite <- app_assoc; [|reflexivity].
    f_equal. destruct e; reflexivity.
Qed.

Lemma messages_post_effects l : messages (post_effects l) = messages l.
Proof.
  induction l as [|e l IH]; [reflexivity|].
  destruct e; simpl; rewrite ?IH; reflexivity.
Qed.

Lemma messages_posts q :
  messages (posts q) = map (fun item => (PT_HANDLE_REQUEST, payload item)) q.
Proof.
  induction q as [|item q IH]; simpl; [reflexivity|].
  rewrite IH. reflexivity.
Qed.

Lemma run_posts_when_ready (acts : list Action) : forall p,
  ready_queue_empty p ->
  ready_queue_empty (fst (run acts p)) /\
  post_effects (snd (run acts p)) ++ posts (queue (fst (run acts p))) =
  posts (queue p ++ concat (map enqueued_by acts)).
Proof.
  induction acts as [|a acts IH]; intros p Hp; simpl.
  - split; [exact Hp|]. rewrite app_nil_r. reflexivity.
  - pose proof (act_keeps_ready_queue_empty a p Hp) as Hk.
    pose proof (act_conserves a p) as Ha.
    destruct (act a p) as [[o p1] l1]. simpl in Hk, Ha.
    destruct (IH p1 Hk) as [Hk2 Hrest].
    destruct (run acts p1) as [p2 l2]. simpl in *.
    split; [exact Hk2|].
    rewrite post_effects_app, <- app_assoc, Hrest.
    rewrite posts_app, app_assoc, Ha, <- posts_app, <- app_assoc.
    reflexivity.
Qed.

(** X24. From the host page to the iframe: when the iframe exists and has a
    window, and the provider is ready at the end of a run, the messages the
    iframe was handed during the run are the requests queued before it and
    the ones pushed during it, all of them, each once, as
    [PT_HANDLE_REQUEST], in the order they were pushed. *)
Theorem requests_reach_the_iframe_in_order
    (acts : list Action) (p p0 : PortisProvider) (pg : Page) :
  ready_queue_empty p ->
  iframeReady (fst (run acts p)) = true ->
  is_Some (elements pg) ->
  reactions pg = [] ->
  iframe_has_window pg = true ->
  outbox (perform css btoa_json p0 (snd (run acts p)) pg) =
  outbox pg ++
  map (fun item => (PT_HANDLE_REQUEST, payload item))
      (queue p ++ concat (map enqueued_by acts)).
Proof.
  intros Hp Hready Hel Hre Hw.
  rewrite perform_outbox by assumption. rewrite Hw. f_equal.
  destruct (run_posts_when_ready acts p Hp) as [Hk Hposts].
  rewrite (Hk Hready) in Hposts. simpl in Hposts. rewrite app_nil_r in Hposts.
  rewrite <- messages_post_effects, Hposts. apply messages_posts.
Qed.

(** X25. The options of the constructor reach the iframe in its address.
    When the constructor goes through on a document that is loaded, the
    iframe is built at once; its address is [portisClient], [/send/?p=] and
    the encoding of the options object, which holds the SDK version, the
    network ([mainnet] when none was given), and the three keys as they were
    passed.  The classes of the wrapper and of the iframe are the mobile
    ones on a mobile page, and the style sheet is appended to the head. *)
Theorem iframe_address_carries_the_options
    (isLocalhost : bool) (opts : Opts) (pg : Page) :
  (negb isLocalhost && negb (provided (apiKey opts))) ||
  (provided (infuraApiKey opts) && provided (providerNodeUrl opts)) = false ->
  untouched pg ->
  readyState pg ∈ loaded_states ->
  exists p log,
    new_PortisProvider isLocalhost opts = (Returned tt, p, log) /\
    elements (perform css btoa_json p log pg) =
      Some {| wrapper_className :=
                if mobile pg then "mobile-wrapper" else "wrapper";
              wrapper_display := "";
              iframe_className :=
                if mobile pg then "mobile-iframe" else "iframe";
              iframe_src :=
                String.append "https://app.portis.io"
                  (String.append "/send/?p="
                     (btoa_json
                        (Some {| opt_sdkVersion := "1.2.9";
                                 opt_network :=
                                   if provided (opts_network opts)
                                   then default "mainnet" (opts_network opts)
                                   else "mainnet";
                                 opt_apiKey := apiKey opts;
                                 opt_infuraApiKey := infuraApiKey opts;
                                 opt_providerNodeUrl := providerNodeUrl opts |}))) |} /\
    head_styles (perform css btoa_json p log pg) = head_styles pg ++ [css].
Proof.
  intros Hok (Hel & Hre & Hll) Hstate.
  apply orb_false_iff in Hok. destruct Hok as [Hkey Hboth].
  unfold new_PortisProvider, constructor. unfold bind at 1. unfold bind at 1.
  rewrite Hkey. unfold ret at 1. unfold bind at 1. unfold bind at 1.
  rewrite Hboth. unfold ret at 1. unfold_m. simpl.
  eexists. eexists. split; [reflexivity|].
  unfold perform. cbn [foldl perform_effect].
  unfold createIframe. rewrite (bool_decide_eq_true_2 _ Hstate).
  unfold onload. rewrite Hre. simpl. split; reflexivity.
Qed.

End PageProperties.

(** The page theorems at work, with an empty style sheet and an encoding
    that answers the network of the options. *)

Lemma desktop_overflow_is_never_touched_witness :
  let pg := blank_page "loading" false true in
  let l1 := [CreateIframe; ShowIframe] in
  let l2 := [HideIframe; ShowIframe] in
  let encode (o : option AppOptions) := "" in
  mobile pg = false /\
  body_overflow (perform "" encode fresh l2
                   (fire_load "" encode fresh (perform "" encode fresh l1 pg)))
  = "auto".
Proof.
  split; [reflexivity|].
  exact (desktop_overflow_is_never_touched "" (fun _ => "") fresh
           [CreateIframe; ShowIframe] [HideIframe; ShowIframe]
           (blank_page "loading" false true) eq_refl).
Defined.

Lemma posts_without_window_are_dropped_witness :
  let pg := blank_page "complete" false false in
  let l1 := [CreateIframe; PostMessage PT_HANDLE_REQUEST (request 1 "eth_accounts")] in
  let l2 := [PostMessage PT_HANDLE_REQUEST (request 2 "eth_sign")] in
  let encode (o : option AppOptions) := "" in
  iframe_has_window pg = false /\
  outbox (perform "" encode fresh l2
            (fire_load "" encode fresh (perform "" encode fresh l1 pg)))
  = [].
Proof.
  split; [reflexivity|].
  exact (posts_without_window_are_dropped "" (fun _ => "") fresh
           [CreateIframe; PostMessage PT_HANDLE_REQUEST (request 1 "eth_accounts")]
           [PostMessage PT_HANDLE_REQUEST (request 2 "eth_sign")]
           (blank_page "complete" false false) eq_refl).
Defined.

Lemma mobile_show_and_hide_witness :
  let encode (o : option AppOptions) := "" in
  let pg := perform "" encode fresh [CreateIframe] (blank_page "complete" true true) in
  (mobile pg = true /\ is_Some (elements pg)) /\
  exists els,
    elements (perform "" encode fresh ([ShowIframe] ++ [HideIframe]) pg) = Some els /\
    wrapper_display els = "none" /\
    body_overflow (perform "" encode fresh ([ShowIframe] ++ [HideIframe]) pg)
    = "inherit".
Proof.
  split; [split; [reflexivity|eexists; reflexivity]|].
  exact (proj1 (mobile_show_and_hide "" (fun _ => "") fresh [ShowIframe]
                  (perform "" (fun _ => "") fresh [CreateIframe]
                     (blank_page "complete" true true))
                  eq_refl (ex_intro _ _ eq_refl))).
Defined.

Lemma late_iframe_catches_up_witness :
  let encode (o : option AppOptions) := "" in
  let pg := blank_page "loading" false true in
  let l := [PostMessage PT_HANDLE_REQUEST (request 1 "eth_accounts");
            ShowIframe;
            PostMessage PT_HANDLE_REQUEST (request 2 "eth_sign")] in
  (untouched pg /\ (readyState pg ∉ loaded_states) /\ ~ In CreateIframe l) /\
  outbox (perform "" encode fresh (CreateIframe :: l) pg) = [] /\
  outbox (fire_load "" encode fresh
            (perform "" encode fresh (CreateIframe :: l) pg)) =
    [(PT_HANDLE_REQUEST, request 1 "eth_accounts");
     (PT_HANDLE_REQUEST, request 2 "eth_sign")] /\
  fire_load "" encode fresh (perform "" encode fresh (CreateIframe :: l) pg) =
  perform "" encode fresh (CreateIframe :: l) (set_readyState "complete" pg).
Proof.
  assert (untouched (blank_page "loading" false true)) as Hu
    by (repeat split).
  assert ("loading" ∉ loaded_states) as Hs
    by (apply (bool_decide_unpack _); vm_compute; exact I).
  assert (~ In CreateIframe
            [PostMessage PT_HANDLE_REQUEST (request 1 "eth_accounts");
             ShowIframe;
             PostMessage PT_HANDLE_REQUEST (request 2 "eth_sign")]) as Hn.
  { simpl. intros H.
    repeat (destruct H as [H|H]; [discriminate H|]). exact H. }
  split; [repeat split; assumption|].
  split; [reflexivity|]. split; [reflexivity|].
  exact (late_iframe_catches_up "" (fun _ => "") fresh
           [PostMessage PT_HANDLE_REQUEST (request 1 "eth_accounts");
            ShowIframe;
            PostMessage PT_HANDLE_REQUEST (request 2 "eth_sign")]
           (blank_page "loading" false true) Hu Hs Hn).
Defined.

Lemma requests_reach_the_iframe_in_order_witness :
  let encode (o : option AppOptions) := "" in
  let pg := perform "" encode fresh [CreateIframe] (blank_page "complete" false true) in
  let acts := [CallSendAsync (request 1 "eth_accounts") (HostCb 1);
               Deliver (from_portis PT_GREEN_LIGHT None);
               CallSendAsync (request 2 "eth_sign") (HostCb 2);
               Deliver (from_portis PT_RESPONSE (Some (answer 1 (JArr []))));
               CallSend (request 3 "eth_uninstallFilter")] in
  iframeReady (fst (run acts fresh)) = true /\
  outbox (perform "" encode fresh (snd (run acts fresh)) pg) =
    [(PT_HANDLE_REQUEST, request 1 "eth_accounts");
     (PT_HANDLE_REQUEST, request 2 "eth_sign");
     (PT_HANDLE_REQUEST, request 3 "eth_uninstallFilter")].
Proof.
  split; [reflexivity|].
  refine (requests_reach_the_iframe_in_order "" (fun _ => "")
            [CallSendAsync (request 1 "eth_accounts") (HostCb 1);
             Deliver (from_portis PT_GREEN_LIGHT None);
             CallSendAsync (request 2 "eth_sign") (HostCb 2);
             Deliver (from_portis PT_RESPONSE (Some (answer 1 (JArr []))));
             CallSend (request 3 "eth_uninstallFilter")]
            fresh fresh
            (perform "" (fun _ => "") fresh [CreateIframe]
               (blank_page "complete" false true))
            _ eq_refl (ex_intro _ _ eq_refl) eq_refl eq_refl).
  intros H. discriminate H.
Defined.

Lemma iframe_address_carries_the_options_witness :
  let encode (o : option AppOptions) :=
    match o with Some a => opt_network a | None => "" end in
  let opts := {| apiKey := Some "k1"; opts_network := Some "ropsten";
                 infuraApiKey := None; providerNodeUrl := None |} in
  let pg := blank_page "interactive" true true in
  (untouched pg /\ (readyState pg ∈ loaded_states)) /\
  exists p log,
    new_PortisProvider false opts = (Returned tt, p, log) /\
    elements (perform ".wrapper{}" encode p log pg) =
      Some {| wrapper_className := "mobile-wrapper"; wrapper_display := "";
              iframe_className := "mobile-iframe";
              iframe_src := "https://app.portis.io/send/?p=ropsten" |} /\
    head_styles (perform ".wrapper{}" encode p log pg) = [".wrapper{}"].
Proof.
  assert (untouched (blank_page "interactive" true true)) as Hu
    by (repeat split).
  assert ("interactive" ∈ loaded_states) as Hs
    by (apply (bool_decide_unpack _); vm_compute; exact I).
  split; [split; assumption|].
  exact (iframe_address_carries_the_options ".wrapper{}"
           (fun o => match o with Some a => opt_network a | None => "" end)
           false
           {| apiKey := Some "k1"; opts_network := Some "ropsten";
              infuraApiKey := None; providerNodeUrl := None |}
           (blank_page "interactive" true true) eq_refl Hu Hs).
Defined.
